(** * Verification of the live-voice audio pipeline and the video poller

    Shallow embedding of
    - [src/components/LiveView.tsx]  (component [LiveView]: [connect],
      [disconnect], [startAudioStream], the session callbacks), and
    - [src/unnamed/part_000]         ([generateVideo]),
    together with the sample encoder of [utils/audioUtils], whose source is
    not part of the tree and is modelled from the specification.

    Times (the [currentTime] of an [AudioContext], the [duration] of an
    [AudioBuffer], the clock [nextStartTimeRef]) are rationals: the source
    only compares them with [Math.max] and adds a duration to a start time.
    Audio samples are rationals as well; every finite float32 is one, and
    its product with 32767 is exact in the double arithmetic of the
    source language. *)

From Stdlib Require Import ZArith QArith Qround Qminmax Lia Ascii String List.
From Stdlib Require Import Decimal DecimalString.
From stdpp Require Import base list.
Import ListNotations.

Local Open Scope Z_scope.

(** ** Values of the source language *)

Module JS.

(** Truthiness of an optional string: [undefined] and the empty string are
    falsy, every other string is truthy. *)
Definition truthy (s : option string) : bool :=
  match s with
  | Some EmptyString => false
  | Some _ => true
  | None => false
  end.

(** [a || b] on optional strings. *)
Definition orElse (a b : option string) : option string :=
  if truthy a then a else b.

(** [s.split(sep)] for a one-character separator. *)
Fixpoint split (sep : Ascii.ascii) (s : string) : list string :=
  match s with
  | EmptyString => [EmptyString]
  | String c rest =>
      if Ascii.eqb c sep then EmptyString :: split sep rest
      else match split sep rest with
           | piece :: pieces => String c piece :: pieces
           | [] => [String c EmptyString]
           end
  end.

(** The character occurs in the string. *)
Fixpoint occurs (c : Ascii.ascii) (s : string) : bool :=
  match s with
  | EmptyString => false
  | String d rest => if Ascii.eqb d c then true else occurs c rest
  end.

(** An optional string inside a template literal: [undefined] prints as
    the word. *)
Definition interpolate (s : option string) : string :=
  match s with
  | Some v => v
  | None => "undefined"
  end.

(** White space and line terminators among the code units below 256, which
    is what a character of a string stands for here: tab, line feed,
    vertical tab, form feed, carriage return, space and no-break space. *)
Definition isWhiteSpace (c : Ascii.ascii) : bool :=
  let n := Ascii.nat_of_ascii c in
  (Nat.leb 9 n && Nat.leb n 13) || Nat.eqb n 32 || Nat.eqb n 160.

Fixpoint trimStart (s : string) : string :=
  match s with
  | EmptyString => EmptyString
  | String c rest => if isWhiteSpace c then trimStart rest else s
  end.

Fixpoint trimEnd (s : string) : string :=
  match s with
  | EmptyString => EmptyString
  | String c rest =>
      match trimEnd rest with
      | EmptyString => if isWhiteSpace c then EmptyString else String c EmptyString
      | kept => String c kept
      end
  end.

(** [s.trim()]. *)
Definition trim (s : string) : string := trimEnd (trimStart s).

(** [n.toString()] for an integer. *)
Definition toString (n : Z) : string := NilZero.string_of_int (Z.to_int n).

End JS.

(** ** The PCM16 sample encoder *)

Module PCM16.

Definition INT16_MAX : Z := 32767.
Definition INT16_MIN : Z := -32768.

(** [Math.round]: the nearest integer, halves towards plus infinity. *)
Definition round (x : Q) : Z := Qfloor (x + (1 # 2))%Q.

(** Storing a number into a 16-bit signed slot ([Int16Array],
    [DataView.setInt16]) keeps it modulo 2^16. *)
Definition toInt16 (z : Z) : Z := (z + 32768) mod 65536 - 32768.

(** Modelled from the spec: the body of [float32ToPCM16] in
    [utils/audioUtils] is missing from the tree.  Per sample, section 4.1
    asks for linear scaling with saturation at the range boundaries:
    values at or above 1.0 give the largest 16-bit value, values at or
    below -1.0 the smallest, and section 8 gives [round(v * 32767)] for
    the values in between. *)
Definition scaleSample (v : Q) : Z :=
  if Qle_bool 1 v then INT16_MAX
  else if Qle_bool v (-1) then INT16_MIN
  else round (v * 32767)%Q.

(** Modelled from the spec: the value read back from the 16-bit slot the
    encoder of [utils/audioUtils] writes the scaled sample to. *)
Definition encodeSample (v : Q) : Z := toInt16 (scaleSample v).

(** Modelled from the spec: [float32ToPCM16] of [utils/audioUtils], one
    16-bit sample per input sample, in order. *)
Definition float32ToPCM16 (input : list Q) : list Z := map encodeSample input.

End PCM16.

(** ** The live-voice component *)

Module LiveView.

(** *** Objects of the environment

    The component holds references to objects that live outside it: the
    output [AudioContext], the promise of the live session, the capture
    graph built by [startAudioStream].  They are kept in three stores and
    referred to by their position, which is the order of creation. *)

(** What the scheduler reads of a decoded [AudioBuffer]. *)
Record AudioBuffer := { duration : Q }.

(** An output [AudioContext]: how often [close()] was called on it and the
    [source.start(when)] calls made on its sources, oldest first. *)
Record OutputContext := {
  closeCalls : nat;
  started : list (Q * AudioBuffer)
}.

(** A callback registered with [sessionPromise.then] while the promise is
    pending. *)
Inductive Reaction :=
| SendRealtimeInput (data : list Z)   (* line 41: session.sendRealtimeInput *)
| CloseSession.                        (* line 132: s.close() *)

(** A live session as returned by [ai.live.connect]: whether its promise
    has fulfilled, the reactions waiting for that, the media chunks handed
    to [sendRealtimeInput] (as the PCM16 samples whose base64 text is sent)
    and the number of [close()] calls. *)
Record Session := {
  resolved : bool;
  reactions : list Reaction;
  realtimeInput : list (list Z);
  sessionCloseCalls : nat
}.

Inductive MicState :=
| Requested     (* getUserMedia is pending *)
| Acquired      (* the stream is held, its tracks are live *)
| Denied        (* getUserMedia rejected *)
| Released.     (* every track was stopped *)

(** One run of [startAudioStream]: the session promise it was given, the
    microphone stream, the processor and source nodes and the 16 kHz input
    context. *)
Record Capture := {
  feeds : nat;
  mic : MicState;
  processorConnected : bool;
  sourceConnected : bool;
  inputContextClosed : bool
}.

(** *** State of the component: the [useState] cells, the [useRef] cells,
    the stores, and the [onmessage] calls suspended at
    [await decodeAudioData] (each holds its local [ctx]). *)
Record State := {
  isConnected : bool;
  status : string;
  audioContextRef : option nat;
  nextStartTimeRef : Q;
  sessionPromiseRef : option nat;
  contexts : list OutputContext;
  sessions : list Session;
  captures : list Capture;
  decoding : list nat
}.

Definition initial : State := {|
  isConnected := false;
  status := "Disconnected";
  audioContextRef := None;
  nextStartTimeRef := 0%Q;
  sessionPromiseRef := None;
  contexts := [];
  sessions := [];
  captures := [];
  decoding := []
|}.

Definition setIsConnected (b : bool) (st : State) : State :=
  {| isConnected := b; status := status st;
     audioContextRef := audioContextRef st;
     nextStartTimeRef := nextStartTimeRef st;
     sessionPromiseRef := sessionPromiseRef st;
     contexts := contexts st; sessions := sessions st;
     captures := captures st; decoding := decoding st |}.

Definition setStatus (s : string) (st : State) : State :=
  {| isConnected := isConnected st; status := s;
     audioContextRef := audioContextRef st;
     nextStartTimeRef := nextStartTimeRef st;
     sessionPromiseRef := sessionPromiseRef st;
     contexts := contexts st; sessions := sessions st;
     captures := captures st; decoding := decoding st |}.

Definition set_audioContextRef (r : option nat) (st : State) : State :=
  {| isConnected := isConnected st; status := status st;
     audioContextRef := r;
     nextStartTimeRef := nextStartTimeRef st;
     sessionPromiseRef := sessionPromiseRef st;
     contexts := contexts st; sessions := sessions st;
     captures := captures st; decoding := decoding st |}.

Definition set_nextStartTimeRef (t : Q) (st : State) : State :=
  {| isConnected := isConnected st; status := status st;
     audioContextRef := audioContextRef st;
     nextStartTimeRef := t;
     sessionPromiseRef := sessionPromiseRef st;
     contexts := contexts st; sessions := sessions st;
     captures := captures st; decoding := decoding st |}.

Definition set_sessionPromiseRef (r : option nat) (st : State) : State :=
  {| isConnected := isConnected st; status := status st;
     audioContextRef := audioContextRef st;
     nextStartTimeRef := nextStartTimeRef st;
     sessionPromiseRef := r;
     contexts := contexts st; sessions := sessions st;
     captures := captures st; decoding := decoding st |}.

Definition set_contexts (l : list OutputContext) (st : State) : State :=
  {| isConnected := isConnected st; status := status st;
     audioContextRef := audioContextRef st;
     nextStartTimeRef := nextStartTimeRef st;
     sessionPromiseRef := sessionPromiseRef st;
     contexts := l; sessions := sessions st;
     captures := captures st; decoding := decoding st |}.

Definition set_sessions (l : list Session) (st : State) : State :=
  {| isConnected := isConnected st; status := status st;
     audioContextRef := audioContextRef st;
     nextStartTimeRef := nextStartTimeRef st;
     sessionPromiseRef := sessionPromiseRef st;
     contexts := contexts st; sessions := l;
     captures := captures st; decoding := decoding st |}.

Definition set_captures (l : list Capture) (st : State) : State :=
  {| isConnected := isConnected st; status := status st;
     audioContextRef := audioContextRef st;
     nextStartTimeRef := nextStartTimeRef st;
     sessionPromiseRef := sessionPromiseRef st;
     contexts := contexts st; sessions := sessions st;
     captures := l; decoding := decoding st |}.

Definition set_decoding (l : list nat) (st : State) : State :=
  {| isConnected := isConnected st; status := status st;
     audioContextRef := audioContextRef st;
     nextStartTimeRef := nextStartTimeRef st;
     sessionPromiseRef := sessionPromiseRef st;
     contexts := contexts st; sessions := sessions st;
     captures := captures st; decoding := l |}.

(** *** Operations of the environment objects *)

(** [new AudioContext({ sampleRate: 24000 })]. *)
Definition newContext : OutputContext := {| closeCalls := 0; started := [] |}.

(** [AudioContext.close()]. *)
Definition closeContext (o : OutputContext) : OutputContext :=
  {| closeCalls := S (closeCalls o); started := started o |}.

(** [createBufferSource], [source.buffer = buffer], [source.connect] and
    [source.start(when)] (lines 100 to 107). *)
Definition startSource (when : Q) (buffer : AudioBuffer) (o : OutputContext)
  : OutputContext :=
  {| closeCalls := closeCalls o; started := started o ++ [(when, buffer)] |}.

(** The promise [ai.live.connect] returns, still pending. *)
Definition newSession : Session :=
  {| resolved := false; reactions := []; realtimeInput := [];
     sessionCloseCalls := 0 |}.

Definition runReaction (s : Session) (r : Reaction) : Session :=
  match r with
  | SendRealtimeInput data =>
      {| resolved := resolved s; reactions := reactions s;
         realtimeInput := realtimeInput s ++ [data];
         sessionCloseCalls := sessionCloseCalls s |}
  | CloseSession =>
      {| resolved := resolved s; reactions := reactions s;
         realtimeInput := realtimeInput s;
         sessionCloseCalls := S (sessionCloseCalls s) |}
  end.

(** [sessionPromise.then(r)]: runs [r] when the promise has fulfilled, and
    keeps it after the reactions registered before otherwise. *)
Definition thenDo (r : Reaction) (s : Session) : Session :=
  if resolved s then runReaction s r
  else {| resolved := false; reactions := reactions s ++ [r];
          realtimeInput := realtimeInput s;
          sessionCloseCalls := sessionCloseCalls s |}.

(** The promise fulfils: the waiting reactions run in registration order. *)
Definition fulfil (s : Session) : Session :=
  if resolved s then s
  else fold_left runReaction (reactions s)
         {| resolved := true; reactions := [];
            realtimeInput := realtimeInput s;
            sessionCloseCalls := sessionCloseCalls s |}.

(** *** [startAudioStream] (lines 16 to 60)

    The analyser and the [audioVolume] cell it feeds only drive the
    display and are left out. *)

(** Up to [await getUserMedia]: the 16 kHz context exists, the microphone
    is requested. *)
Definition startAudioStream (sessionPromise : nat) (st : State) : State :=
  set_captures
    (captures st ++
       [{| feeds := sessionPromise; mic := Requested;
           processorConnected := false; sourceConnected := false;
           inputContextClosed := false |}]) st.

(** After [getUserMedia] settled.  Granted: the source, the analyser and
    the processor are created and connected (lines 19 to 52).  Refused:
    the call rejects at line 18 and nothing after it runs. *)
Definition startAudioStream_resume (c : nat) (granted : bool) (st : State)
  : State :=
  match captures st !! c with
  | Some cap =>
      match mic cap with
      | Requested =>
          set_captures
            (<[c := if granted
                    then {| feeds := feeds cap; mic := Acquired;
                            processorConnected := true;
                            sourceConnected := true;
                            inputContextClosed := inputContextClosed cap |}
                    else {| feeds := feeds cap; mic := Denied;
                            processorConnected := processorConnected cap;
                            sourceConnected := sourceConnected cap;
                            inputContextClosed := inputContextClosed cap |}]>
               (captures st)) st
      | _ => st
      end
  | None => st
  end.

(** The function [startAudioStream] returns (lines 54 to 59): it stops the
    tracks, disconnects the processor and the source and closes the input
    context.  The only caller, [onopen], awaits the call and drops the
    result, so no handler below runs it. *)
Definition cleanup (cap : Capture) : Capture :=
  {| feeds := feeds cap; mic := Released; processorConnected := false;
     sourceConnected := false; inputContextClosed := true |}.

(** [processor.onaudioprocess] (lines 36 to 49): encode the frame and chain
    the send on the session promise the capture was started with. *)
Definition onaudioprocess (c : nat) (inputData : list Q) (st : State) : State :=
  match captures st !! c with
  | Some cap =>
      if processorConnected cap
      then
        let pcm16 := PCM16.float32ToPCM16 inputData in
        set_sessions
          (alter (thenDo (SendRealtimeInput pcm16)) (feeds cap) (sessions st))
          st
      else st
  | None => st
  end.

(** *** [connect] (lines 62 to 128) and the session callbacks *)

(** The statements of the [try] block of [connect] that can throw. *)
Inductive Throw :=
| NewClient      (* line 65: new GoogleGenAI *)
| NewContext     (* line 68: new AudioContext *)
| LiveConnect.   (* line 72: ai.live.connect *)

(** [connect] when no statement of its [try] block throws (lines 64 to
    122). *)
Definition connect (st : State) : State :=
  let st := setStatus "Connecting..." st in
  let outCtx := length (contexts st) in
  let st := set_contexts (contexts st ++ [newContext]) st in
  let st := set_audioContextRef (Some outCtx) st in
  let st := set_nextStartTimeRef 0%Q st in
  let sessionPromise := length (sessions st) in
  let st := set_sessions (sessions st ++ [newSession]) st in
  set_sessionPromiseRef (Some sessionPromise) st.

(** [connect] when the statement [thrown] throws: the statements of the
    [try] block before it have run, the ones after it have not, and the
    [catch] (lines 124 to 127) sets the status.  When [ai.live.connect]
    throws, the output context was already created and stored and the
    clock reset (lines 68 to 70), and [sessionPromiseRef] keeps what it
    held. *)
Definition connect_catch (thrown : Throw) (st : State) : State :=
  let st := setStatus "Connecting..." st in
  let st :=
    match thrown with
    | NewClient | NewContext => st
    | LiveConnect =>
        let outCtx := length (contexts st) in
        let st := set_contexts (contexts st ++ [newContext]) st in
        let st := set_audioContextRef (Some outCtx) st in
        set_nextStartTimeRef 0%Q st
    end in
  setStatus "Failed to connect" st.

(** [onopen] (lines 82 to 87) of the session whose promise is
    [sessionPromise]. *)
Definition onopen (sessionPromise : nat) (st : State) : State :=
  let st := setStatus "Live" st in
  let st := setIsConnected true st in
  startAudioStream sessionPromise st.

(** [onmessage] up to [await decodeAudioData] (lines 88 to 98): the guard,
    and the local [ctx] the suspended call keeps. *)
Definition onmessage (audioData : option string) (st : State) : State :=
  match audioContextRef st with
  | Some ctx =>
      if JS.truthy audioData then set_decoding (decoding st ++ [ctx]) st else st
  | None => st
  end.

(** [onmessage] after the await (lines 100 to 108) for the [k]-th suspended
    call.  [outcome] is what decoding the payload gave: [None] when [atob]
    or [decodeAudioData] raised, which ends the call there; [now] is
    [ctx.currentTime]. *)
Definition onmessage_resume (k : nat) (outcome : option AudioBuffer) (now : Q)
    (st : State) : State :=
  match decoding st !! k with
  | Some ctx =>
      let st := set_decoding (delete k (decoding st)) st in
      match outcome with
      | Some buffer =>
          let start := Qmax now (nextStartTimeRef st) in
          let st :=
            set_contexts (alter (startSource start buffer) ctx (contexts st)) st in
          set_nextStartTimeRef (start + duration buffer)%Q st
      | None => st
      end
  | None => st
  end.

Definition onclose (st : State) : State :=
  setIsConnected false (setStatus "Disconnected" st).

Definition onerror (st : State) : State :=
  setIsConnected false (setStatus "Error" st).

(** *** [disconnect] (lines 130 to 139) *)

Definition disconnect (st : State) : State :=
  let st :=
    match sessionPromiseRef st with
    | Some p => set_sessions (alter (thenDo CloseSession) p (sessions st)) st
    | None => st
    end in
  let st :=
    match audioContextRef st with
    | Some c => set_contexts (alter closeContext c (contexts st)) st
    | None => st
    end in
  setStatus "Disconnected" (setIsConnected false st).

(** The button (line 167): [onClick={isConnected ? disconnect : connect}]. *)
Definition onClick (st : State) : State :=
  if isConnected st then disconnect st else connect st.

(** The same button when the [connect] it may run meets a statement that
    throws. *)
Definition onClick_catch (thrown : Throw) (st : State) : State :=
  if isConnected st then disconnect st else connect_catch thrown st.

(** *** Events and runs

    [Click] is the button when nothing throws in the [connect] it may run,
    [ClickThrowing] the button when the named statement of that [connect]
    throws; the session callbacks carry the session that [connect]
    created them for. *)

Inductive Event :=
| Click
| SessionResolved (s : nat)
| SessionOpen (s : nat)
| SessionMessage (s : nat) (audioData : option string)
| Decoded (k : nat) (outcome : option AudioBuffer) (now : Q)
| SessionClose (s : nat)
| SessionError (s : nat)
| UserMedia (c : nat) (granted : bool)
| AudioProcess (c : nat) (inputData : list Q)
| ClickThrowing (thrown : Throw).

(** A callback of session [s] runs only when [connect] created [s]. *)
Definition ofSession (s : nat) (st : State) (k : State -> State) : State :=
  if Nat.ltb s (length (sessions st)) then k st else st.

Definition step (st : State) (e : Event) : State :=
  match e with
  | Click => onClick st
  | SessionResolved s => set_sessions (alter fulfil s (sessions st)) st
  | SessionOpen s => ofSession s st (onopen s)
  | SessionMessage s audioData => ofSession s st (onmessage audioData)
  | Decoded k outcome now => onmessage_resume k outcome now st
  | SessionClose s => ofSession s st onclose
  | SessionError s => ofSession s st onerror
  | UserMedia c granted => startAudioStream_resume c granted st
  | AudioProcess c inputData => onaudioprocess c inputData st
  | ClickThrowing thrown => onClick_catch thrown st
  end.

Definition run (st : State) (tr : list Event) : State := fold_left step tr st.

(** The clock after each event of a run, oldest first. *)
Fixpoint clocks (st : State) (tr : list Event) : list Q :=
  match tr with
  | [] => []
  | e :: tr' => nextStartTimeRef (step st e) :: clocks (step st e) tr'
  end.

(** *** Notions the properties are stated with *)

(** Every reference held by the component or by a suspended call points to
    an object that was created. *)
Record wellFormed (st : State) : Prop := {
  wf_audioContextRef :
    forall c, audioContextRef st = Some c -> (c < length (contexts st))%nat;
  wf_decoding :
    Forall (fun c => (c < length (contexts st))%nat) (decoding st);
  wf_sessionPromiseRef :
    forall p, sessionPromiseRef st = Some p -> (p < length (sessions st))%nat;
  wf_captures :
    Forall (fun cap => (feeds cap < length (sessions st))%nat) (captures st)
}.

(** The event runs [connect], which starts a new session unless it
    throws. *)
Definition startsSession (st : State) (e : Event) : bool :=
  match e with
  | Click | ClickThrowing _ => negb (isConnected st)
  | _ => false
  end.

(** A run that stays within the session in progress. *)
Fixpoint withinSession (st : State) (tr : list Event) : Prop :=
  match tr with
  | [] => True
  | e :: tr' => startsSession st e = false /\ withinSession (step st e) tr'
  end.

(** The buffer a decoded chunk carries has a duration that is not
    negative. *)
Definition nonNegativeDuration (e : Event) : Prop :=
  match e with
  | Decoded _ (Some buffer) _ => (0 <= duration buffer)%Q
  | _ => True
  end.

(** A call that goes live: the button, [onopen], the promise of the
    session fulfilling, the microphone granted. *)
Definition goLive : list Event :=
  [Click; SessionOpen 0%nat; SessionResolved 0%nat; UserMedia 0%nat true].

Definition liveCapture : Capture :=
  {| feeds := 0%nat; mic := Acquired; processorConnected := true;
     sourceConnected := true; inputContextClosed := false |}.

(** The frames among the reactions that wait on a session promise. *)
Definition framesOf (rs : list Reaction) : list (list Z) :=
  flat_map (fun r => match r with
                     | SendRealtimeInput data => [data]
                     | CloseSession => []
                     end) rs.

Definition pendingFrames (s : Session) : list (list Z) := framesOf (reactions s).





(** The microphone was granted after [onopen] while the promise of the
    session is still pending. *)
Definition openedPending : list Event :=
  [Click; SessionOpen 0%nat; UserMedia 0%nat true].

(** *** Further notions the properties are stated with *)

Definition statusAgrees (st : State) : Prop :=
  (isConnected st = true <-> status st = "Live"%string) /\
  (status st = "Disconnected"%string \/ status st = "Connecting..."%string \/
   status st = "Live"%string \/ status st = "Error"%string \/
   status st = "Failed to connect"%string).

Definition heldOpen (cap : Capture) : Prop :=
  mic cap <> Released /\
  inputContextClosed cap = false /\
  (processorConnected cap = true <-> mic cap = Acquired).

(** Everything handed or still to be handed to [sendRealtimeInput] of a
    session, in order. *)
Definition outbound (s : Session) : list (list Z) :=
  realtimeInput s ++ pendingFrames s.

(** A fulfilled promise has no reaction waiting. *)
Definition settled (s : Session) : Prop :=
  resolved s = true -> reactions s = [].

(** The frame the event adds for session [s]: the encoded input of an
    [onaudioprocess] of a connected capture started with that session. *)
Definition captured (st : State) (s : nat) (e : Event) : list (list Z) :=
  match e with
  | AudioProcess c inputData =>
      match captures st !! c with
      | Some cap =>
          if processorConnected cap && Nat.eqb (feeds cap) s
          then [PCM16.float32ToPCM16 inputData]
          else []
      | None => []
      end
  | _ => []
  end.

End LiveView.

(** ** [generateVideo] of the service module (part_000, lines 88 to 133) *)

Module GeminiService.

Inductive AspectRatio := Landscape (* '16:9' *) | Portrait (* '9:16' *).

Record Image := { imageBytes : string; mimeType : string }.

Record Config := {
  numberOfVideos : nat;
  resolution : string;
  aspectRatio : AspectRatio
}.

Record Request := {
  model : string;
  prompt : string;
  image : option Image;
  config : Config
}.

(** The long-running operation as the polling code reads it:
    [operation.done] and
    [operation.response?.generatedVideos?.[0]?.video?.uri]. *)
Record Video := { uri : option string }.
Record GeneratedVideo := { video : option Video }.
Record GenerateVideosResponse := {
  generatedVideos : option (list GeneratedVideo)
}.
Record Operation := {
  done : bool;
  response : option GenerateVideosResponse
}.

Definition Blob := list Byte.byte.

(** What the calls of the function are answered with: the operation
    [generateVideos] starts, the answers of the successive
    [getVideosOperation] calls, the body [fetch] and [blob] deliver for a
    URL, and the object URL made for a blob.  The awaited calls are taken
    as fulfilling; a rejection would leave the function with the error of
    the call. *)
Record Env := {
  API_KEY : string;
  generateVideos : Request -> Operation;
  answers : list Operation;
  fetchBlob : string -> Blob;
  createObjectURL : Blob -> string
}.

Inductive Effect :=
| CallGenerateVideos (r : Request)
| SetTimeout (ms : Z)
| CallGetVideosOperation (operation : Operation)
| CallFetch (url : string)
| CallCreateObjectURL (b : Blob).

Inductive Outcome :=
| Returned (url : string)
| Threw (message : string)
| Polling.   (* the loop is waiting and the recorded answers are used up *)

(** Lines 100 to 118: the request. *)
Definition request (prompt : string) (aspectRatio : AspectRatio)
    (startImageBase64 : option string) : Request :=
  let config :=
    {| numberOfVideos := 1; resolution := "720p"; aspectRatio := aspectRatio |} in
  match startImageBase64 with
  | Some img =>
      if JS.truthy (Some img)
      then
        let cleanBase64 :=
          match JS.orElse (JS.split ","%char img !! 1%nat) (Some img) with
          | Some b => b
          | None => img
          end in
        {| model := "veo-3.1-fast-generate-preview";
           prompt := match JS.orElse (Some prompt) (Some "Animate this"%string) with
                     | Some p => p
                     | None => prompt
                     end;
           image := Some {| imageBytes := cleanBase64; mimeType := "image/png" |};
           config := config |}
      else
        {| model := "veo-3.1-fast-generate-preview"; prompt := prompt;
           image := None; config := config |}
  | None =>
      {| model := "veo-3.1-fast-generate-preview"; prompt := prompt;
         image := None; config := config |}
  end.

(** Lines 121 to 124: [while (!operation.done)].  Each turn waits 5000 ms
    and asks for the operation again; the next answer becomes
    [operation]. *)
Fixpoint pollLoop (answers : list Operation) (operation : Operation)
  : option Operation * list Effect :=
  if done operation then (Some operation, [])
  else
    match answers with
    | next :: later =>
        let (final, effects) := pollLoop later next in
        (final, SetTimeout 5000 :: CallGetVideosOperation operation :: effects)
    | [] => (None, [SetTimeout 5000; CallGetVideosOperation operation])
    end.

(** Line 126: [operation.response?.generatedVideos?.[0]?.video?.uri]. *)
Definition downloadLink (operation : Operation) : option string :=
  r ← response operation;
  vs ← generatedVideos r;
  g ← vs !! 0%nat;
  v ← video g;
  uri v.

(** Lines 127 to 132. *)
Definition retrieve (env : Env) (operation : Operation) : Outcome * list Effect :=
  match downloadLink operation with
  | Some link =>
      if JS.truthy (Some link)
      then
        let url := (link ++ "&key=" ++ API_KEY env)%string in
        let videoBlob := fetchBlob env url in
        (Returned (createObjectURL env videoBlob),
         [CallFetch url; CallCreateObjectURL videoBlob])
      else (Threw "Video generation failed", [])
  | None => (Threw "Video generation failed", [])
  end.

Definition generateVideo (env : Env) (prompt : string)
    (aspectRatio : AspectRatio) (startImageBase64 : option string)
  : Outcome * list Effect :=
  let req := request prompt aspectRatio startImageBase64 in
  let operation := generateVideos env req in
  match pollLoop (answers env) operation with
  | (Some final, polled) =>
      let (outcome, fetched) := retrieve env final in
      (outcome, CallGenerateVideos req :: polled ++ fetched)
  | (None, polled) => (Polling, CallGenerateVideos req :: polled)
  end.

(** *** Notions the properties are stated with *)

(** One turn of the loop per operation that was not done: a wait of
    5000 ms, then the poll. *)
Definition pollsOf (waiting : list Operation) : list Effect :=
  flat_map (fun operation =>
              [SetTimeout 5000; CallGetVideosOperation operation]) waiting.

(** The operations the function sees: the one [generateVideos] returned,
    then the answers to its polls. *)
Definition snapshots (env : Env) (req : Request) : list Operation :=
  generateVideos env req :: answers env.

Definition notDone (operation : Operation) : Prop := done operation = false.

(** A run of the service that answers the second poll with a finished
    operation carrying one video. *)
Definition waitingOperation : Operation := {| done := false; response := None |}.

Definition finishedOperation : Operation :=
  {| done := true;
     response :=
       Some {| generatedVideos :=
                 Some [ {| video := Some {| uri := Some "https://host/v1?alt=media"%string |} |} ] |} |}.

Definition sampleEnv : Env :=
  {| API_KEY := "k";
     generateVideos := fun _ => waitingOperation;
     answers := [waitingOperation; finishedOperation];
     fetchBlob := fun _ => [Byte.x00; Byte.x01];
     createObjectURL := fun _ => "blob:video"%string |}.

(** *** [sendChatMessage] (lines 8 to 69) *)

Record Location := { lat : Q; lng : Q }.
Record LatLng := { latitude : Q; longitude : Q }.

Record ChatOptions := {
  useThinking : bool;
  useSearch : bool;
  useMaps : bool;
  useFast : bool;
  location : option Location
}.

Inductive Tool := googleSearch | googleMaps.

(** [config]: [tools], [toolConfig.retrievalConfig.latLng] and
    [thinkingConfig.thinkingBudget]. *)
Record ChatConfig := {
  tools : option (list Tool);
  toolConfig : option LatLng;
  thinkingConfig : option Z
}.

(** What [ai.chats.create] and [chat.sendMessage] are called with.  The
    history is an array the function passes on untouched. *)
Record ChatCall := {
  chatModel : string;
  chatConfig : ChatConfig;
  chatHistory : list string;
  chatMessage : string
}.

Definition sendChatMessage (prompt : string) (history : list string)
    (options : ChatOptions) : ChatCall :=
  let model := "gemini-2.5-flash"%string in
  let tools : list Tool := [] in
  let toolConfig : option LatLng := None in
  let model :=
    if useThinking options then "gemini-3-pro-preview"%string
    else if useFast options then "gemini-2.5-flash-lite-latest"%string
    else model in
  let '(model, tools) :=
    if useSearch options
    then ("gemini-2.5-flash"%string, (tools ++ [googleSearch])%list)
    else (model, tools) in
  let '(model, tools, toolConfig) :=
    if useMaps options
    then ("gemini-2.5-flash"%string, (tools ++ [googleMaps])%list,
          match location options with
          | Some l => Some {| latitude := lat l; longitude := lng l |}
          | None => toolConfig
          end)
    else (model, tools, toolConfig) in
  let config :=
    {| tools := if Nat.ltb 0 (length tools) then Some tools else None;
       toolConfig := toolConfig;
       thinkingConfig := if useThinking options then Some 32768 else None |} in
  {| chatModel := model; chatConfig := config; chatHistory := history;
     chatMessage := prompt |}.

(** *** The [generateContent] calls (lines 137 to 229) *)

Inductive Modality := AUDIO | IMAGE.

Inductive RequestPart :=
| InlineDataPart (mime : string) (data : option string)
| TextPart (text : string).

Record ContentRequest := {
  contentModel : string;
  contentParts : list RequestPart;
  responseModalities : option (list Modality);
  voiceName : option string
}.

Record InlineData := { inlineBytes : option string }.
Record ResponsePart := { inlineData : option InlineData }.
Record Content := { parts : option (list ResponsePart) }.
Record Candidate := { content : option Content }.
Record ContentResponse := {
  candidates : option (list Candidate);
  responseText : option string
}.

(** [imageBase64.split(',')[1]]: [undefined] when there is no comma. *)
Definition afterComma (dataUrl : string) : option string :=
  JS.split ","%char dataUrl !! 1%nat.

Definition generateSpeech_request (text : string) : ContentRequest :=
  {| contentModel := "gemini-2.5-flash-preview-tts";
     contentParts := [TextPart text];
     responseModalities := Some [AUDIO];
     voiceName := Some "Kore"%string |}.

(** Line 152: [candidates?.[0]?.content?.parts?.[0]?.inlineData?.data]. *)
Definition generateSpeech (generateContent : ContentRequest -> ContentResponse)
    (text : string) : option string :=
  cs ← candidates (generateContent (generateSpeech_request text));
  c ← cs !! 0%nat;
  ct ← content c;
  ps ← parts ct;
  p ← ps !! 0%nat;
  d ← inlineData p;
  inlineBytes d.

Definition analyzeImage_request (imageBase64 prompt : string) : ContentRequest :=
  let cleanBase64 := afterComma imageBase64 in
  {| contentModel := "gemini-3-pro-preview";
     contentParts :=
       [InlineDataPart "image/jpeg" cleanBase64;
        TextPart (JS.interpolate
                    (JS.orElse (Some prompt)
                       (Some "Describe this image in detail."%string)))];
     responseModalities := None;
     voiceName := None |}.

Definition analyzeImage (generateContent : ContentRequest -> ContentResponse)
    (imageBase64 prompt : string) : option string :=
  responseText (generateContent (analyzeImage_request imageBase64 prompt)).

(** Line 177: [videoBase64.split(';')[0].split(':')[1] || 'video/mp4']. *)
Definition videoMimeType (videoBase64 : string) : string :=
  let head :=
    match JS.split ";"%char videoBase64 !! 0%nat with
    | Some h => h
    | None => EmptyString
    end in
  JS.interpolate
    (JS.orElse (JS.split ":"%char head !! 1%nat) (Some "video/mp4"%string)).

Definition analyzeVideo_request (videoBase64 prompt : string) : ContentRequest :=
  let cleanBase64 := afterComma videoBase64 in
  let mimeType := videoMimeType videoBase64 in
  {| contentModel := "gemini-3-pro-preview";
     contentParts :=
       [InlineDataPart mimeType cleanBase64;
        TextPart (JS.interpolate
                    (JS.orElse (Some prompt)
                       (Some "Analyze this video."%string)))];
     responseModalities := None;
     voiceName := None |}.

Definition analyzeVideo (generateContent : ContentRequest -> ContentResponse)
    (videoBase64 prompt : string) : option string :=
  responseText (generateContent (analyzeVideo_request videoBase64 prompt)).

Definition editImage_request (imageBase64 prompt : string) : ContentRequest :=
  let cleanBase64 := afterComma imageBase64 in
  {| contentModel := "gemini-2.5-flash-image";
     contentParts := [InlineDataPart "image/jpeg" cleanBase64; TextPart prompt];
     responseModalities := Some [IMAGE];
     voiceName := None |}.

(** Lines 209 to 213: the loop over the parts of the first candidate. *)
Fixpoint editImage_loop (ps : list ResponsePart) : option string :=
  match ps with
  | [] => None
  | part :: rest =>
      match inlineData part with
      | Some d =>
          Some ("data:image/png;base64," ++ JS.interpolate (inlineBytes d))%string
      | None => editImage_loop rest
      end
  end.

(** [response.candidates?.[0]?.content?.parts || []]. *)
Definition firstParts (response : ContentResponse) : list ResponsePart :=
  match (cs ← candidates response; c ← cs !! 0%nat; ct ← content c; parts ct) with
  | Some ps => ps
  | None => []
  end.

Definition editImage (generateContent : ContentRequest -> ContentResponse)
    (imageBase64 prompt : string) : Outcome :=
  let response := generateContent (editImage_request imageBase64 prompt) in
  match editImage_loop (firstParts response) with
  | Some url => Returned url
  | None => Threw "No image returned"
  end.

Definition transcribeAudio_request (audioBase64 : option string) : ContentRequest :=
  {| contentModel := "gemini-2.5-flash";
     contentParts :=
       [InlineDataPart "audio/mp3" audioBase64;
        TextPart "Transcribe this audio."];
     responseModalities := None;
     voiceName := None |}.

Definition transcribeAudio (generateContent : ContentRequest -> ContentResponse)
    (audioBase64 : option string) : option string :=
  responseText (generateContent (transcribeAudio_request audioBase64)).

(** *** Further notions the properties are stated with *)

Definition noInline (part : ResponsePart) : Prop := inlineData part = None.

End GeminiService.

(** ** The chat view (component [ChatView], in the file of [types.ts]) *)

Module ChatView.

Inductive Role := user | model.

(** ['fast' | 'smart' | 'search' | 'maps']. *)
Inductive Mode := Fast | Smart | Search | Maps.

(** The [type] of a grounding link: ['search' | 'map']. *)
Inductive LinkType := SearchLink | MapLink.

Record GroundingUrl := {
  title : option string;
  uri : option string;
  type : LinkType
}.

Record Message := {
  id : string;
  role : Role;
  text : option string;
  groundingUrls : option (list GroundingUrl);
  timestamp : Z
}.

(** What the view reads of the answer: [result.text] and
    [result.candidates?.[0]?.groundingMetadata?.groundingChunks], each
    chunk with its [web] and [maps] entries. *)
Record Source := { sourceTitle : option string; sourceUri : option string }.
Record GroundingChunk := { web : option Source; maps : option Source }.
Record GroundingMetadata := { groundingChunks : option (list GroundingChunk) }.
Record ChatCandidate := { groundingMetadata : option GroundingMetadata }.
Record ChatResult := {
  resultCandidates : option (list ChatCandidate);
  resultText : option string
}.

(** A [handleSend] call that is suspended: at the geolocation request
    (maps mode only), or at [sendChatMessage]. *)
Inductive Pending :=
| Locating (userMsg : Message)
| Awaiting (call : GeminiService.ChatCall).

(** The [useState] cells, the suspended calls in order of start, and the
    requests made so far. *)
Record State := {
  input : string;
  messages : list Message;
  isLoading : bool;
  mode : Mode;
  inflight : list Pending;
  calls : list GeminiService.ChatCall
}.

Definition greeting : string :=
  "Hello! I'm your AI assistant. I can help with complex problems, finding places, or searching the web.".

(** The state at mount; [mounted] is what [Date.now()] gave. *)
Definition initial (mounted : Z) : State :=
  {| input := EmptyString;
     messages := [ {| id := "init"; role := model; text := Some greeting;
                      groundingUrls := None; timestamp := mounted |} ];
     isLoading := false;
     mode := Smart;
     inflight := [];
     calls := [] |}.

Definition setInput (v : string) (st : State) : State :=
  {| input := v; messages := messages st; isLoading := isLoading st;
     mode := mode st; inflight := inflight st; calls := calls st |}.

Definition setMessages (f : list Message -> list Message) (st : State) : State :=
  {| input := input st; messages := f (messages st); isLoading := isLoading st;
     mode := mode st; inflight := inflight st; calls := calls st |}.

Definition setIsLoading (b : bool) (st : State) : State :=
  {| input := input st; messages := messages st; isLoading := b;
     mode := mode st; inflight := inflight st; calls := calls st |}.

Definition setMode (m : Mode) (st : State) : State :=
  {| input := input st; messages := messages st; isLoading := isLoading st;
     mode := m; inflight := inflight st; calls := calls st |}.

Definition set_inflight (l : list Pending) (st : State) : State :=
  {| input := input st; messages := messages st; isLoading := isLoading st;
     mode := mode st; inflight := l; calls := calls st |}.

Definition set_calls (l : list GeminiService.ChatCall) (st : State) : State :=
  {| input := input st; messages := messages st; isLoading := isLoading st;
     mode := mode st; inflight := inflight st; calls := l |}.

Definition modeEqb (a b : Mode) : bool :=
  match a, b with
  | Fast, Fast | Smart, Smart | Search, Search | Maps, Maps => true
  | _, _ => false
  end.

(** Lines 77 to 87: the call of [sendChatMessage], with an empty history
    and the flags of the mode. *)
Definition callFor (m : Mode) (userMsg : Message)
    (location : option GeminiService.Location) : GeminiService.ChatCall :=
  GeminiService.sendChatMessage
    (JS.interpolate (JS.orElse (text userMsg) (Some EmptyString)))
    []
    {| GeminiService.useThinking := modeEqb m Smart;
       GeminiService.useSearch := modeEqb m Search;
       GeminiService.useMaps := modeEqb m Maps;
       GeminiService.useFast := modeEqb m Fast;
       GeminiService.location := location |}.

Definition startCall (m : Mode) (userMsg : Message)
    (location : option GeminiService.Location) (st : State) : State :=
  let call := callFor m userMsg location in
  set_calls (calls st ++ [call]) (set_inflight (inflight st ++ [Awaiting call]) st).

(** [handleSend] up to its first await (lines 56 to 76).  [idNow] and
    [stampNow] are the two readings of [Date.now()]. *)
Definition handleSend (idNow stampNow : Z) (st : State) : State :=
  if negb (JS.truthy (Some (JS.trim (input st)))) then st
  else
    let userMsg :=
      {| id := JS.toString idNow; role := user; text := Some (input st);
         groundingUrls := None; timestamp := stampNow |} in
    let m := mode st in
    let st := setMessages (fun prev => prev ++ [userMsg]) st in
    let st := setInput EmptyString st in
    let st := setIsLoading true st in
    if modeEqb m Maps
    then set_inflight (inflight st ++ [Locating userMsg]) st
    else startCall m userMsg None st.

(** The geolocation request of the [k]-th suspended call settled (lines 65
    to 74); a refusal is caught and leaves [location] undefined. *)
Definition handleSend_located (k : nat)
    (position : option GeminiService.Location) (st : State) : State :=
  match inflight st !! k with
  | Some (Locating userMsg) =>
      let call := callFor Maps userMsg position in
      set_calls (calls st ++ [call])
        (set_inflight (<[k := Awaiting call]> (inflight st)) st)
  | _ => st
  end.

(** Lines 90 to 98: the links of the grounding chunks. *)
Definition linksOf (chunk : GroundingChunk) : list GroundingUrl :=
  (match web chunk with
   | Some w => [ {| title := sourceTitle w; uri := sourceUri w; type := SearchLink |} ]
   | None => []
   end)
  ++
  (match maps chunk with
   | Some m => [ {| title := sourceTitle m; uri := sourceUri m; type := MapLink |} ]
   | None => []
   end).

Definition groundingChunksOf (result : ChatResult) : option (list GroundingChunk) :=
  cs ← resultCandidates result;
  c ← cs !! 0%nat;
  g ← groundingMetadata c;
  groundingChunks g.

Definition urlsOf (result : ChatResult) : list GroundingUrl :=
  match groundingChunksOf result with
  | Some chunks => flat_map linksOf chunks
  | None => []
  end.

Definition failureText : string := "Something went wrong. Please try again.".

(** [sendChatMessage] of the [k]-th suspended call settled (lines 89 to
    113); [outcome] is [None] when it rejected. *)
Definition handleSend_settled (k : nat) (outcome : option ChatResult)
    (idNow stampNow : Z) (st : State) : State :=
  match inflight st !! k with
  | Some (Awaiting _) =>
      let st := set_inflight (delete k (inflight st)) st in
      let reply :=
        match outcome with
        | Some result =>
            {| id := JS.toString (idNow + 1); role := model;
               text := resultText result;
               groundingUrls := Some (urlsOf result);
               timestamp := stampNow |}
        | None =>
            {| id := JS.toString idNow; role := model;
               text := Some failureText;
               groundingUrls := None; timestamp := stampNow |}
        end in
      setIsLoading false (setMessages (fun prev => prev ++ [reply]) st)
  | _ => st
  end.

(** The send button is disabled when [isLoading || !input.trim()]; the
    Enter key calls [handleSend] whatever [isLoading] is (lines 182 to
    186). *)
Definition sendDisabled (st : State) : bool :=
  isLoading st || negb (JS.truthy (Some (JS.trim (input st)))).

Inductive Event :=
| Change (value : string)
| SelectMode (m : Mode)
| KeyEnter (idNow stampNow : Z)
| ClickSend (idNow stampNow : Z)
| Located (k : nat) (position : option GeminiService.Location)
| Settled (k : nat) (outcome : option ChatResult) (idNow stampNow : Z).

Definition step (st : State) (e : Event) : State :=
  match e with
  | Change value => setInput value st
  | SelectMode m => setMode m st
  | KeyEnter idNow stampNow => handleSend idNow stampNow st
  | ClickSend idNow stampNow =>
      if sendDisabled st then st else handleSend idNow stampNow st
  | Located k position => handleSend_located k position st
  | Settled k outcome idNow stampNow =>
      handleSend_settled k outcome idNow stampNow st
  end.

Definition run (st : State) (tr : list Event) : State := fold_left step tr st.

(** *** Further notions the properties are stated with *)

(** Every character of the string is white space. *)
Fixpoint allWhite (s : string) : bool :=
  match s with
  | EmptyString => true
  | String c rest => JS.isWhiteSpace c && allWhite rest
  end.

Definition isUser (m : Message) : bool :=
  match role m with user => true | model => false end.

Definition isModel (m : Message) : bool := negb (isUser m).

Definition count (f : Message -> bool) (l : list Message) : nat :=
  length (List.filter f l).

(** Every user message has its request in flight or its reply listed. *)
Definition balanced (st : State) : Prop :=
  (count isModel (messages st) + length (inflight st)
   = count isUser (messages st) + 1)%nat.

(** What holds of every request the chat view makes. *)
Definition viewCall (call : GeminiService.ChatCall) : Prop :=
  GeminiService.chatHistory call = [] /\
  (GeminiService.thinkingConfig (GeminiService.chatConfig call) = Some 32768%Z
     <-> GeminiService.chatModel call = "gemini-3-pro-preview"%string) /\
  (GeminiService.tools (GeminiService.chatConfig call) <> None
     -> GeminiService.chatModel call = "gemini-2.5-flash"%string) /\
  (forall ts, GeminiService.tools (GeminiService.chatConfig call) = Some ts ->
              length ts = 1%nat) /\
  (GeminiService.toolConfig (GeminiService.chatConfig call) <> None
     -> GeminiService.tools (GeminiService.chatConfig call)
        = Some [GeminiService.googleMaps]).

Definition isSearchLink (u : GroundingUrl) : bool :=
  match type u with SearchLink => true | MapLink => false end.

Definition isMapLink (u : GroundingUrl) : bool :=
  match type u with MapLink => true | SearchLink => false end.

Definition linkTarget (u : GroundingUrl) : option string * option string :=
  (title u, uri u).

Definition sourceTarget (s : Source) : option string * option string :=
  (sourceTitle s, sourceUri s).

End ChatView.

(** ** The vision view (component [VisionView]) *)

Module VisionView.

(** ['analyze' | 'edit' | 'audio']. *)
Inductive Tab := analyze | edit | audio.

(** What the view reads of a [File]. *)
Record File := { name : string; type : string }.

(** A [handleAction] call suspended at its service call, with the
    arguments of the call. *)
Inductive Pending :=
| AnalyzeImage (base64 prompt : string)
| AnalyzeVideo (base64 prompt : string)
| EditImage (base64 prompt : string)
| TranscribeAudio (data : option string).

(** The [useState] cells, the suspended calls and the requests made so
    far. *)
Record State := {
  activeTab : Tab;
  file : option File;
  preview : option string;
  prompt : string;
  output : option string;
  loading : bool;
  pending : list Pending;
  requests : list GeminiService.ContentRequest
}.

Definition initial : State :=
  {| activeTab := analyze; file := None; preview := None;
     prompt := EmptyString; output := None; loading := false;
     pending := []; requests := [] |}.

Definition setActiveTab (t : Tab) (st : State) : State :=
  {| activeTab := t; file := file st; preview := preview st;
     prompt := prompt st; output := output st; loading := loading st;
     pending := pending st; requests := requests st |}.

Definition setFile (f : option File) (st : State) : State :=
  {| activeTab := activeTab st; file := f; preview := preview st;
     prompt := prompt st; output := output st; loading := loading st;
     pending := pending st; requests := requests st |}.

Definition setPreview (v : option string) (st : State) : State :=
  {| activeTab := activeTab st; file := file st; preview := v;
     prompt := prompt st; output := output st; loading := loading st;
     pending := pending st; requests := requests st |}.

Definition setPrompt (v : string) (st : State) : State :=
  {| activeTab := activeTab st; file := file st; preview := preview st;
     prompt := v; output := output st; loading := loading st;
     pending := pending st; requests := requests st |}.

Definition setOutput (v : option string) (st : State) : State :=
  {| activeTab := activeTab st; file := file st; preview := preview st;
     prompt := prompt st; output := v; loading := loading st;
     pending := pending st; requests := requests st |}.

Definition setLoading (b : bool) (st : State) : State :=
  {| activeTab := activeTab st; file := file st; preview := preview st;
     prompt := prompt st; output := output st; loading := b;
     pending := pending st; requests := requests st |}.

Definition set_pending (l : list Pending) (st : State) : State :=
  {| activeTab := activeTab st; file := file st; preview := preview st;
     prompt := prompt st; output := output st; loading := loading st;
     pending := l; requests := requests st |}.

Definition set_requests (l : list GeminiService.ContentRequest) (st : State)
  : State :=
  {| activeTab := activeTab st; file := file st; preview := preview st;
     prompt := prompt st; output := output st; loading := loading st;
     pending := pending st; requests := l |}.

(** [f.type.startsWith(kind)]. *)
Definition startsWith (kind : string) (f : File) : bool :=
  String.prefix kind (type f).

(** [handleFile] (lines 12 to 29) for the file [e.target.files?.[0]]; the
    reader it starts delivers later. *)
Definition handleFile (chosen : option File) (st : State) : State :=
  match chosen with
  | Some f =>
      let st := setFile (Some f) st in
      let st :=
        if startsWith "image" f then st
        else if startsWith "video" f then st
        else setPreview None st in
      setOutput None st
  | None => st
  end.

(** [reader.onloadend] (line 17). *)
Definition onloadend (result : option string) (st : State) : State :=
  setPreview result st.

(** The request a suspended call stands for. *)
Definition requestOf (p : Pending) : GeminiService.ContentRequest :=
  match p with
  | AnalyzeImage base64 prompt => GeminiService.analyzeImage_request base64 prompt
  | AnalyzeVideo base64 prompt => GeminiService.analyzeVideo_request base64 prompt
  | EditImage base64 prompt => GeminiService.editImage_request base64 prompt
  | TranscribeAudio data => GeminiService.transcribeAudio_request data
  end.

Definition call (p : Pending) (st : State) : State :=
  set_requests (requests st ++ [requestOf p]) (set_pending (pending st ++ [p]) st).

(** [handleAction] up to its await (lines 31 to 53).  On the analyze tab
    a file that is neither an image nor a video reaches no call: the [try]
    block ends and [finally] runs at once. *)
Definition handleAction (st : State) : State :=
  match file st, preview st with
  | Some f, Some base64 =>
      if negb (JS.truthy (Some base64)) then st
      else
        let st := setLoading true st in
        match activeTab st with
        | analyze =>
            if startsWith "image" f then call (AnalyzeImage base64 (prompt st)) st
            else if startsWith "video" f then call (AnalyzeVideo base64 (prompt st)) st
            else setLoading false st
        | edit =>
            call (EditImage base64
                    (JS.interpolate
                       (JS.orElse (Some (prompt st))
                          (Some "Enhance this image"%string)))) st
        | audio => call (TranscribeAudio (GeminiService.afterComma base64)) st
        end
  | _, _ => st
  end.

(** What the awaited service function gives for the response of the
    service: the value it returns, or the text of the error it throws. *)
Definition resultOf (p : Pending) (response : GeminiService.ContentResponse)
  : option string + string :=
  let generateContent := fun _ : GeminiService.ContentRequest => response in
  match p with
  | AnalyzeImage base64 prompt =>
      inl (GeminiService.analyzeImage generateContent base64 prompt)
  | AnalyzeVideo base64 prompt =>
      inl (GeminiService.analyzeVideo generateContent base64 prompt)
  | TranscribeAudio data =>
      inl (GeminiService.transcribeAudio generateContent data)
  | EditImage base64 prompt =>
      match GeminiService.editImage generateContent base64 prompt with
      | GeminiService.Returned url => inl (Some url)
      | GeminiService.Threw message => inr ("Error: " ++ message)%string
      | GeminiService.Polling => inl None
      end
  end.

(** [handleAction] after the await (lines 38 to 61) for the [k]-th
    suspended call.  [outcome] is the response of the service, or the text
    of the error when the request was rejected. *)
Definition handleAction_settled (k : nat)
    (outcome : GeminiService.ContentResponse + string) (st : State) : State :=
  match pending st !! k with
  | Some p =>
      let st := set_pending (delete k (pending st)) st in
      let st :=
        match outcome with
        | inl response =>
            match resultOf p response with
            | inl value => setOutput value st
            | inr e => setOutput (Some ("Error processing request. " ++ e)%string) st
            end
        | inr e => setOutput (Some ("Error processing request. " ++ e)%string) st
        end in
      setLoading false st
  | None => st
  end.

(** The action button is disabled when [!file || loading] (line 124). *)
Definition actionDisabled (st : State) : bool :=
  match file st with
  | Some _ => loading st
  | None => true
  end.

Inductive Event :=
| SelectTab (t : Tab)
| ChooseFile (chosen : option File)
| ReaderLoaded (result : option string)
| ClearFile
| ChangePrompt (value : string)
| ClickAction
| Settled (k : nat) (outcome : GeminiService.ContentResponse + string).

Definition step (st : State) (e : Event) : State :=
  match e with
  | SelectTab t => setOutput None (setActiveTab t st)
  | ChooseFile chosen => handleFile chosen st
  | ReaderLoaded result => onloadend result st
  | ClearFile => setPreview None (setFile None st)
  | ChangePrompt value => setPrompt value st
  | ClickAction => if actionDisabled st then st else handleAction st
  | Settled k outcome => handleAction_settled k outcome st
  end.

Definition run (st : State) (tr : list Event) : State := fold_left step tr st.

(** *** Further notions the properties are stated with *)

Definition tracked (st : State) : Prop :=
  (loading st = true /\ length (pending st) = 1%nat) \/
  (loading st = false /\ pending st = []).

End VisionView.

(** ** The studio view (component [StudioView], in the file of
    [LiveView.tsx]) *)

Module StudioView.

(** ['image' | 'video' | 'tts']. *)
Inductive StudioMode := image | video | tts.

Definition modeEqb (a b : StudioMode) : bool :=
  match a, b with
  | image, image | video, video | tts, tts => true
  | _, _ => false
  end.

(** A [handleGenerate] call suspended at its service function, with the
    arguments it passed. *)
Inductive Pending :=
| GenerateImage (prompt aspectRatio : string)
| GenerateVideo (prompt aspectRatio : string) (startImageBase64 : option string)
| GenerateSpeech (text : string).

(** The [useState] cells, the suspended calls and the number of alerts
    raised. *)
Record State := {
  mode : StudioMode;
  prompt : string;
  loading : bool;
  result : option string;
  aspectRatio : string;
  startImage : option string;
  pending : list Pending;
  alerts : nat
}.

Definition initial : State :=
  {| mode := image; prompt := EmptyString; loading := false; result := None;
     aspectRatio := "1:1"; startImage := None; pending := []; alerts := 0 |}.

Definition setMode (m : StudioMode) (st : State) : State :=
  {| mode := m; prompt := prompt st; loading := loading st;
     result := result st; aspectRatio := aspectRatio st;
     startImage := startImage st; pending := pending st; alerts := alerts st |}.

Definition setPrompt (v : string) (st : State) : State :=
  {| mode := mode st; prompt := v; loading := loading st;
     result := result st; aspectRatio := aspectRatio st;
     startImage := startImage st; pending := pending st; alerts := alerts st |}.

Definition setLoading (b : bool) (st : State) : State :=
  {| mode := mode st; prompt := prompt st; loading := b;
     result := result st; aspectRatio := aspectRatio st;
     startImage := startImage st; pending := pending st; alerts := alerts st |}.

Definition setResult (v : option string) (st : State) : State :=
  {| mode := mode st; prompt := prompt st; loading := loading st;
     result := v; aspectRatio := aspectRatio st;
     startImage := startImage st; pending := pending st; alerts := alerts st |}.

Definition setAspectRatio (r : string) (st : State) : State :=
  {| mode := mode st; prompt := prompt st; loading := loading st;
     result := result st; aspectRatio := r;
     startImage := startImage st; pending := pending st; alerts := alerts st |}.

Definition setStartImage (v : option string) (st : State) : State :=
  {| mode := mode st; prompt := prompt st; loading := loading st;
     result := result st; aspectRatio := aspectRatio st;
     startImage := v; pending := pending st; alerts := alerts st |}.

Definition set_pending (l : list Pending) (st : State) : State :=
  {| mode := mode st; prompt := prompt st; loading := loading st;
     result := result st; aspectRatio := aspectRatio st;
     startImage := startImage st; pending := l; alerts := alerts st |}.

(** [alert(...)] in the [catch] block (line 218). *)
Definition alert (st : State) : State :=
  {| mode := mode st; prompt := prompt st; loading := loading st;
     result := result st; aspectRatio := aspectRatio st;
     startImage := startImage st; pending := pending st;
     alerts := S (alerts st) |}.

(** [handleGenerate] up to its await (lines 191 to 204). *)
Definition handleGenerate (st : State) : State :=
  if negb (JS.truthy (Some (prompt st))) && negb (modeEqb (mode st) video)
  then st
  else
    let call :=
      match mode st with
      | image => GenerateImage (prompt st) (aspectRatio st)
      | video =>
          GenerateVideo (prompt st) (aspectRatio st)
            (JS.orElse (startImage st) None)
      | tts => GenerateSpeech (prompt st)
      end in
    let st := setLoading true st in
    let st := setResult None st in
    set_pending (pending st ++ [call]) st.

(** [handleGenerate] after its awaits (lines 198 to 222) for the [k]-th
    suspended call.  [outcome] is the value the awaited calls gave, or
    [None] when one of them threw; in speech mode the value is played and
    no result is kept. *)
Definition handleGenerate_settled (k : nat) (outcome : option string)
    (st : State) : State :=
  match pending st !! k with
  | Some call =>
      let st := set_pending (delete k (pending st)) st in
      let st :=
        match outcome with
        | Some res =>
            match call with
            | GenerateSpeech _ => setResult None st
            | _ => setResult (Some res) st
            end
        | None => alert st
        end in
      setLoading false st
  | None => st
  end.

(** The ratios offered: all five in image mode, two in video mode, none in
    speech mode (lines 268 to 281). *)
Definition offered (m : StudioMode) (r : string) : bool :=
  match m with
  | image =>
      String.eqb r "1:1" || String.eqb r "16:9" || String.eqb r "9:16"
      || String.eqb r "3:4" || String.eqb r "4:3"
  | video => String.eqb r "16:9" || String.eqb r "9:16"
  | tts => false
  end.

(** The generate button is disabled when
    [loading || (mode !== 'video' && !prompt)] (line 309). *)
Definition generateDisabled (st : State) : bool :=
  loading st
  || (negb (modeEqb (mode st) video) && negb (JS.truthy (Some (prompt st)))).

Inductive Event :=
| SelectMode (m : StudioMode)
| ChangePrompt (value : string)
| SelectRatio (r : string)
| StartImageLoaded (dataUrl : option string)
| RemoveStartImage
| ClickGenerate
| Settled (k : nat) (outcome : option string).

Definition step (st : State) (e : Event) : State :=
  match e with
  | SelectMode m => setPrompt EmptyString (setResult None (setMode m st))
  | ChangePrompt value => setPrompt value st
  | SelectRatio r => if offered (mode st) r then setAspectRatio r st else st
  | StartImageLoaded dataUrl => setStartImage dataUrl st
  | RemoveStartImage => setStartImage None st
  | ClickGenerate => if generateDisabled st then st else handleGenerate st
  | Settled k outcome => handleGenerate_settled k outcome st
  end.

Definition run (st : State) (tr : list Event) : State := fold_left step tr st.

(** *** Notions the properties are stated with *)

(** One generation at most is suspended, [loading] tells whether one is,
    and no result is kept while one is. *)
Definition tracked (st : State) : Prop :=
  (loading st = true /\ length (pending st) = 1%nat /\ result st = None) \/
  (loading st = false /\ pending st = []).

End StudioView.

(** * Properties *)

(** ** The sample encoder *)

Section PCM16_facts.

Import PCM16.
Local Open Scope Q_scope.

Lemma toInt16_in_range (z : Z) :
  (INT16_MIN <= z <= INT16_MAX)%Z -> toInt16 z = z.
Proof.
  unfold INT16_MIN, INT16_MAX, toInt16. intros Hz.
  rewrite Z.mod_small; lia.
Qed.

Lemma round_upper (x : Q) (n : Z) : x < inject_Z n -> (round x <= n)%Z.
Proof.
  intros Hx. unfold round.
  assert (Hlt : inject_Z (Qfloor (x + (1 # 2))) < inject_Z (n + 1)).
  { eapply Qle_lt_trans; [apply Qfloor_le |].
    rewrite inject_Z_plus.
    apply Qlt_le_trans with (inject_Z n + (1 # 2)).
    - apply Qplus_lt_l. exact Hx.
    - apply Qplus_le_r. discriminate. }
  rewrite <- Zlt_Qlt in Hlt. lia.
Qed.

Lemma round_lower (x : Q) (n : Z) : inject_Z n < x -> (n <= round x)%Z.
Proof.
  intros Hx. unfold round.
  rewrite <- (Qfloor_Z n). apply Qfloor_resp_le.
  apply Qle_trans with x; [apply Qlt_le_weak, Hx |].
  rewrite <- (Qplus_0_r x) at 1. apply Qplus_le_r. discriminate.
Qed.

Lemma scaleSample_high (v : Q) : 1 <= v -> scaleSample v = INT16_MAX.
Proof.
  intros Hv. unfold scaleSample.
  apply Qle_bool_iff in Hv. now rewrite Hv.
Qed.

Lemma scaleSample_low (v : Q) : v <= -1 -> scaleSample v = INT16_MIN.
Proof.
  intros Hv. unfold scaleSample.
  destruct (Qle_bool 1 v) eqn:Hhigh.
  - apply Qle_bool_iff in Hhigh.
    exfalso. apply (Qle_not_lt _ _ (Qle_trans _ _ _ Hhigh Hv)). reflexivity.
  - apply Qle_bool_iff in Hv. now rewrite Hv.
Qed.

Lemma scaleSample_between (v : Q) :
  -1 < v -> v < 1 -> scaleSample v = round (v * 32767).
Proof.
  intros Hlo Hhi. unfold scaleSample.
  destruct (Qle_bool 1 v) eqn:Hhigh.
  - apply Qle_bool_iff in Hhigh. exfalso. exact (Qle_not_lt _ _ Hhigh Hhi).
  - destruct (Qle_bool v (-1)) eqn:Hlow; [| reflexivity].
    apply Qle_bool_iff in Hlow. exfalso. exact (Qle_not_lt _ _ Hlow Hlo).
Qed.

Lemma scaleSample_range (v : Q) :
  (INT16_MIN <= scaleSample v <= INT16_MAX)%Z.
Proof.
  unfold scaleSample.
  destruct (Qle_bool 1 v) eqn:Hhigh; [unfold INT16_MIN, INT16_MAX; lia |].
  destruct (Qle_bool v (-1)) eqn:Hlow; [unfold INT16_MIN, INT16_MAX; lia |].
  assert (Hhi : v < 1).
  { apply Qnot_le_lt. intros H. apply Qle_bool_iff in H. congruence. }
  assert (Hlo : -1 < v).
  { apply Qnot_le_lt. intros H. apply Qle_bool_iff in H. congruence. }
  split.
  - apply Z.le_trans with (-32767)%Z; [unfold INT16_MIN; lia |].
    apply round_lower.
    change (inject_Z (-32767)) with ((-1) * 32767).
    apply Qmult_lt_compat_r; [reflexivity | exact Hlo].
  - apply round_upper.
    change (inject_Z INT16_MAX) with (1 * 32767).
    apply Qmult_lt_compat_r; [reflexivity | exact Hhi].
Qed.

Lemma encodeSample_no_wrap (v : Q) : encodeSample v = scaleSample v.
Proof. apply toInt16_in_range, scaleSample_range. Qed.

(** C3 (against the encoder as the specification describes it): the sample
    at every position of the output is 32767 when the input sample is at
    least 1, -32768 when it is at most -1, and [round (v * 32767)] when it
    lies strictly between; it always lies in the signed 16-bit range and
    is the scaled value itself, so the 16-bit store never wraps. *)
Theorem float32ToPCM16_saturates (input : list Q) (i : nat) (v : Q) :
  input !! i = Some v ->
  exists z : Z,
    float32ToPCM16 input !! i = Some z /\
    (1 <= v -> z = 32767%Z) /\
    (v <= -1 -> z = (-32768)%Z) /\
    (-1 < v /\ v < 1 -> z = round (v * 32767)) /\
    (INT16_MIN <= z <= INT16_MAX)%Z /\
    z = scaleSample v.
Proof.
  intros Hi. exists (encodeSample v).
  split.
  { unfold float32ToPCM16. rewrite list_lookup_fmap, Hi. reflexivity. }
  rewrite encodeSample_no_wrap.
  repeat split.
  - apply scaleSample_high.
  - apply scaleSample_low.
  - intros [Hlo Hhi]. now apply scaleSample_between.
  - apply scaleSample_range.
  - apply scaleSample_range.
Qed.

Lemma float32ToPCM16_saturates_witness :
  exists z : Z,
    float32ToPCM16 [3 # 2; -2 # 1; 1 # 2] !! 2%nat = Some z /\
    (1 <= 1 # 2 -> z = 32767%Z) /\
    (1 # 2 <= -1 -> z = (-32768)%Z) /\
    (-1 < 1 # 2 /\ 1 # 2 < 1 -> z = round ((1 # 2) * 32767)) /\
    (INT16_MIN <= z <= INT16_MAX)%Z /\
    z = scaleSample (1 # 2).
Proof.
  apply (float32ToPCM16_saturates [3 # 2; -2 # 1; 1 # 2] 2 (1 # 2)).
  reflexivity.
Defined.

End PCM16_facts.

(** ** The live-voice component: reachable states *)

(** Unfolds the field updates and reduces the projections they meet. *)
Ltac state_simpl :=
  cbv beta delta
    [LiveView.setIsConnected LiveView.setStatus LiveView.set_audioContextRef
     LiveView.set_nextStartTimeRef LiveView.set_sessionPromiseRef
     LiveView.set_contexts LiveView.set_sessions LiveView.set_captures
     LiveView.set_decoding];
  cbn [LiveView.isConnected LiveView.status LiveView.audioContextRef
       LiveView.nextStartTimeRef LiveView.sessionPromiseRef LiveView.contexts
       LiveView.sessions LiveView.captures LiveView.decoding].

Section LiveView_invariant.

Import LiveView.
Local Open Scope nat_scope.

Lemma wellFormed_initial : wellFormed initial.
Proof.
  split; simpl; intros; try discriminate; constructor.
Qed.

Lemma wellFormed_connect st : wellFormed st -> wellFormed (connect st).
Proof.
  intros [Hc Hd Hp Hcap]. split; simpl.
  - intros c [= <-]. rewrite length_app. simpl. lia.
  - eapply Forall_impl; [exact Hd |]. simpl. intros c Hlt.
    rewrite length_app. lia.
  - intros p [= <-]. rewrite length_app. simpl. lia.
  - eapply Forall_impl; [exact Hcap |]. simpl. intros cap Hlt.
    rewrite length_app. lia.
Qed.

Lemma wellFormed_connect_catch t st :
  wellFormed st -> wellFormed (connect_catch t st).
Proof.
  intros [Hc Hd Hp Hcap]. destruct t; split; simpl; auto.
  - intros c [= <-]. rewrite length_app. simpl. lia.
  - eapply Forall_impl; [exact Hd |]. simpl. intros c Hlt.
    rewrite length_app. lia.
Qed.

(** A [connect] that throws creates no session and touches no capture. *)
Lemma connect_catch_frame t st :
  sessions (connect_catch t st) = sessions st /\
  captures (connect_catch t st) = captures st /\
  sessionPromiseRef (connect_catch t st) = sessionPromiseRef st /\
  decoding (connect_catch t st) = decoding st /\
  isConnected (connect_catch t st) = isConnected st /\
  status (connect_catch t st) = "Failed to connect"%string.
Proof. destruct t; repeat split; reflexivity. Qed.

Lemma disconnect_frame st :
  audioContextRef (disconnect st) = audioContextRef st /\
  sessionPromiseRef (disconnect st) = sessionPromiseRef st /\
  nextStartTimeRef (disconnect st) = nextStartTimeRef st /\
  decoding (disconnect st) = decoding st /\
  captures (disconnect st) = captures st /\
  length (contexts (disconnect st)) = length (contexts st) /\
  length (sessions (disconnect st)) = length (sessions st).
Proof.
  unfold disconnect.
  destruct (sessionPromiseRef st) as [p |] eqn:Ep; state_simpl;
    destruct (audioContextRef st) as [c |] eqn:Ec; state_simpl;
    rewrite ?length_alter, ?Ep, ?Ec; repeat split; reflexivity.
Qed.

Lemma wellFormed_disconnect st : wellFormed st -> wellFormed (disconnect st).
Proof.
  intros [Hc Hd Hp Hcap].
  destruct (disconnect_frame st) as (Ea & Es & _ & Ed & Ecap & Elc & Els).
  split; rewrite ?Ea, ?Es, ?Ed, ?Ecap, ?Elc, ?Els; assumption.
Qed.

Lemma wellFormed_step st e : wellFormed st -> wellFormed (step st e).
Proof.
  intros Hwf. destruct e as [| s | s | s d | k o now | s | s | c g | c f | t]; simpl.
  - unfold onClick. destruct (isConnected st).
    + now apply wellFormed_disconnect.
    + now apply wellFormed_connect.
  - destruct Hwf as [Hc Hd Hp Hcap].
    split; state_simpl; rewrite ?length_alter; auto.
  - unfold ofSession. destruct (s <? length (sessions st)) eqn:Hs; [| exact Hwf].
    apply Nat.ltb_lt in Hs. destruct Hwf as [Hc Hd Hp Hcap].
    split; state_simpl; auto.
    apply Forall_app. split; [exact Hcap |]. repeat constructor. exact Hs.
  - unfold ofSession. destruct (s <? length (sessions st)); [| exact Hwf].
    unfold onmessage. destruct (audioContextRef st) as [c |] eqn:Ec; [| exact Hwf].
    destruct (JS.truthy d); [| exact Hwf].
    destruct Hwf as [Hc Hd Hp Hcap]. split; state_simpl; auto.
    apply Forall_app. split; [exact Hd |]. repeat constructor. now apply Hc.
  - unfold onmessage_resume.
    destruct (decoding st !! k) as [c |]; [| exact Hwf].
    destruct Hwf as [Hc Hd Hp Hcap].
    destruct o as [b |]; split; state_simpl; rewrite ?length_alter; auto;
      now apply Forall_delete.
  - unfold ofSession. destruct (s <? length (sessions st)); [| exact Hwf].
    destruct Hwf as [Hc Hd Hp Hcap]. split; state_simpl; auto.
  - unfold ofSession. destruct (s <? length (sessions st)); [| exact Hwf].
    destruct Hwf as [Hc Hd Hp Hcap]. split; state_simpl; auto.
  - unfold startAudioStream_resume.
    destruct (captures st !! c) as [cap |] eqn:Ecap; [| exact Hwf].
    destruct (mic cap); try exact Hwf.
    destruct Hwf as [Hc Hd Hp Hcap]. split; state_simpl; auto.
    apply Forall_insert; [exact Hcap |].
    pose proof (Forall_lookup_1 _ _ _ _ Hcap Ecap) as Hf. simpl in Hf.
    destruct g; simpl; exact Hf.
  - unfold onaudioprocess.
    destruct (captures st !! c) as [cap |]; [| exact Hwf].
    destruct (processorConnected cap); [| exact Hwf].
    destruct Hwf as [Hc Hd Hp Hcap].
    split; state_simpl; rewrite ?length_alter; auto.
  - unfold onClick_catch. destruct (isConnected st).
    + now apply wellFormed_disconnect.
    + now apply wellFormed_connect_catch.
Qed.

Lemma wellFormed_run tr : forall st, wellFormed st -> wellFormed (run st tr).
Proof.
  induction tr as [| e tr IH]; intros st Hwf; simpl; [exact Hwf |].
  apply IH, wellFormed_step, Hwf.
Qed.

Lemma wellFormed_reachable tr : wellFormed (run initial tr).
Proof. apply wellFormed_run, wellFormed_initial. Qed.

End LiveView_invariant.

(** ** The playback clock *)

Section Playback.

Import LiveView.
Local Open Scope Q_scope.

(** C2: [connect] sets the clock to 0 (as it is in the initial state), and
    for a chunk whose decoding gave [buffer], the resumed [onmessage]
    takes [start = max(ctx.currentTime, nextStartTime)], starts a source
    for [buffer] at [start] on the output context the call holds, and
    leaves the clock at [start + buffer.duration]. *)
Theorem onmessage_schedules_at_max
    (tr : list Event) (k ctx : nat) (buffer : AudioBuffer) (now : Q) :
  let st := run initial tr in
  let start := Qmax now (nextStartTimeRef st) in
  let st' := step st (Decoded k (Some buffer) now) in
  decoding st !! k = Some ctx ->
  (exists o o',
     contexts st !! ctx = Some o /\
     contexts st' !! ctx = Some o' /\
     started o' = (started o ++ [(start, buffer)])%list /\
     closeCalls o' = closeCalls o) /\
  nextStartTimeRef st' = start + duration buffer /\
  nextStartTimeRef initial = 0 /\
  (forall st0, nextStartTimeRef (connect st0) = 0).
Proof.
  intros st start st' Hk.
  assert (Hctx : (ctx < length (contexts st))%nat).
  { pose proof (wf_decoding _ (wellFormed_reachable tr)) as Hd.
    exact (Forall_lookup_1 _ _ _ _ Hd Hk). }
  apply lookup_lt_is_Some_2 in Hctx. destruct Hctx as [o Ho].
  subst st'. simpl. unfold onmessage_resume. rewrite Hk. state_simpl.
  repeat split; try reflexivity.
  exists o, (startSource start buffer o).
  rewrite list_lookup_alter_eq, Ho. repeat split; reflexivity.
Qed.

Lemma onmessage_schedules_at_max_witness :
  let tr := [Click; SessionMessage 0 (Some "UklGRg=="%string)] in
  let buffer := {| duration := 1 # 2 |} in
  let st := run initial tr in
  let start := Qmax 3 (nextStartTimeRef st) in
  let st' := step st (Decoded 0 (Some buffer) 3) in
  (exists o o',
     contexts st !! 0%nat = Some o /\
     contexts st' !! 0%nat = Some o' /\
     started o' = (started o ++ [(start, buffer)])%list /\
     closeCalls o' = closeCalls o) /\
  nextStartTimeRef st' = start + duration buffer /\
  nextStartTimeRef initial = 0 /\
  (forall st0, nextStartTimeRef (connect st0) = 0).
Proof.
  apply (onmessage_schedules_at_max
           [Click; SessionMessage 0 (Some "UklGRg=="%string)] 0 0
           {| duration := 1 # 2 |} 3).
  reflexivity.
Defined.

Lemma Qmax_ge_r (a b : Q) : b <= Qmax a b.
Proof. apply Q.le_max_r. Qed.

Lemma step_clock_le (st : State) (e : Event) :
  startsSession st e = false -> nonNegativeDuration e ->
  nextStartTimeRef st <= nextStartTimeRef (step st e).
Proof.
  intros Hs Hd.
  destruct e as [| s | s | s d | k o now | s | s | c g | c f | t]; simpl in *.
  - unfold onClick. destruct (isConnected st); [| discriminate].
    destruct (disconnect_frame st) as (_ & _ & -> & _). apply Qle_refl.
  - apply Qle_refl.
  - unfold ofSession. destruct (s <? length (sessions st))%nat; apply Qle_refl.
  - unfold ofSession, onmessage.
    destruct (s <? length (sessions st))%nat; [| apply Qle_refl].
    destruct (audioContextRef st); [| apply Qle_refl].
    destruct (JS.truthy d); apply Qle_refl.
  - unfold onmessage_resume.
    destruct (decoding st !! k); [| apply Qle_refl].
    destruct o as [buffer |]; state_simpl; [| apply Qle_refl].
    apply Qle_trans with (Qmax now (nextStartTimeRef st)).
    + apply Qmax_ge_r.
    + rewrite <- (Qplus_0_r (Qmax now (nextStartTimeRef st))) at 1.
      apply Qplus_le_r. exact Hd.
  - unfold ofSession. destruct (s <? length (sessions st))%nat; apply Qle_refl.
  - unfold ofSession. destruct (s <? length (sessions st))%nat; apply Qle_refl.
  - unfold startAudioStream_resume.
    destruct (captures st !! c) as [cap |]; [| apply Qle_refl].
    destruct (mic cap); apply Qle_refl.
  - unfold onaudioprocess.
    destruct (captures st !! c) as [cap |]; [| apply Qle_refl].
    destruct (processorConnected cap); apply Qle_refl.
  - unfold onClick_catch. destruct (isConnected st); [| discriminate].
    destruct (disconnect_frame st) as (_ & _ & -> & _). apply Qle_refl.
Qed.

Lemma clocks_from_le (tr : list Event) :
  forall st, withinSession st tr -> Forall nonNegativeDuration tr ->
  forall j b, clocks st tr !! j = Some b -> nextStartTimeRef st <= b.
Proof.
  induction tr as [| e tr IH]; intros st Hw Hd j b Hj; [discriminate |].
  destruct Hw as [Hs Hw]. inversion Hd as [| ? ? He Hd']; subst.
  pose proof (step_clock_le st e Hs He) as Hle.
  destruct j as [| j]; simpl in Hj.
  - injection Hj as <-. exact Hle.
  - eapply Qle_trans; [exact Hle |]. exact (IH _ Hw Hd' j b Hj).
Qed.

(** C1: along a run within one session in which decoded buffers have
    durations that are not negative, the clock never decreases, whatever
    the events and their order are: its value after any event is at most
    its value after any later one (position 0 is the value before the
    run). *)
Theorem nextStartTime_monotone (st : State) (tr : list Event) :
  withinSession st tr ->
  Forall nonNegativeDuration tr ->
  forall (i j : nat) (a b : Q),
    (i <= j)%nat ->
    (nextStartTimeRef st :: clocks st tr) !! i = Some a ->
    (nextStartTimeRef st :: clocks st tr) !! j = Some b ->
    a <= b.
Proof.
  revert st. induction tr as [| e tr IH]; intros st Hw Hd i j a b Hij Hi Hj.
  - destruct i as [| i]; [| discriminate].
    destruct j as [| j]; [| discriminate].
    simpl in Hi, Hj. injection Hi as <-. injection Hj as <-. apply Qle_refl.
  - destruct i as [| i].
    + simpl in Hi. injection Hi as <-.
      destruct j as [| j].
      * simpl in Hj. injection Hj as <-. apply Qle_refl.
      * exact (clocks_from_le (e :: tr) st Hw Hd j b Hj).
    + destruct j as [| j]; [lia |].
      destruct Hw as [Hs Hw]. inversion Hd as [| ? ? He Hd']; subst.
      apply (IH (step st e) Hw Hd' i j a b); [lia | exact Hi | exact Hj].
Qed.

Lemma nextStartTime_monotone_witness :
  let st := run initial [Click; SessionOpen 0] in
  let tr := [SessionMessage 0 (Some "AAAA"%string);
             SessionMessage 0 (Some "BBBB"%string);
             Decoded 0 (Some {| duration := 1 # 2 |}) 3;
             Decoded 0 (Some {| duration := 0 |}) (1 # 4);
             Click] in
  (nextStartTimeRef st :: clocks st tr) = [0; 0; 0; 7 # 2; 7 # 2; 7 # 2]
  /\ 0 <= 7 # 2.
Proof.
  split; [reflexivity |].
  apply (nextStartTime_monotone (run initial [Click; SessionOpen 0])
           [SessionMessage 0 (Some "AAAA"%string);
            SessionMessage 0 (Some "BBBB"%string);
            Decoded 0 (Some {| duration := 1 # 2 |}) 3;
            Decoded 0 (Some {| duration := 0 |}) (1 # 4);
            Click]
           ltac:(simpl; tauto)
           ltac:(repeat constructor; simpl; discriminate)
           1 4 0 (7 # 2) ltac:(lia) eq_refl eq_refl).
Defined.

End Playback.

Section Playback_drop.

Import LiveView.
Local Open Scope Q_scope.

(** C6: a chunk whose payload does not decode is dropped.  The arrival of
    a message changes neither the clock nor what is scheduled; when the
    decoding fails, the suspended call ends, nothing is started on any
    output context, and the clock and every other cell keep their
    values.  A message without audio data changes nothing at all. *)
Theorem undecodable_chunk_leaves_clock (st : State) :
  (forall s audioData,
     let st' := step st (SessionMessage s audioData) in
     nextStartTimeRef st' = nextStartTimeRef st /\
     contexts st' = contexts st) /\
  (forall k now,
     let st' := step st (Decoded k None now) in
     nextStartTimeRef st' = nextStartTimeRef st /\
     contexts st' = contexts st /\
     decoding st' = delete k (decoding st) /\
     st' = set_decoding (delete k (decoding st)) st) /\
  (forall s audioData,
     JS.truthy audioData = false ->
     step st (SessionMessage s audioData) = st).
Proof.
  split; [| split].
  - intros s audioData. simpl. unfold ofSession, onmessage.
    destruct (s <? length (sessions st))%nat; [| split; reflexivity].
    destruct (audioContextRef st); [| split; reflexivity].
    destruct (JS.truthy audioData); split; reflexivity.
  - intros k now. simpl. unfold onmessage_resume.
    destruct (decoding st !! k) as [ctx |] eqn:Hk.
    + repeat split; reflexivity.
    + assert (Hdel : delete k (decoding st) = decoding st).
      { apply lookup_ge_None in Hk. clear -Hk.
        revert k Hk. induction (decoding st) as [| x l IH]; intros k Hk.
        - destruct k; reflexivity.
        - destruct k as [| k]; simpl in Hk; [lia |].
          simpl. f_equal. apply IH. lia. }
      rewrite Hdel. destruct st; repeat split; reflexivity.
  - intros s audioData Hf. simpl. unfold ofSession, onmessage. rewrite Hf.
    destruct (s <? length (sessions st))%nat; [| reflexivity].
    destruct (audioContextRef st); reflexivity.
Qed.

Lemma undecodable_chunk_leaves_clock_witness :
  step (run initial [Click]) (SessionMessage 0 (Some EmptyString))
  = run initial [Click].
Proof.
  apply (undecodable_chunk_leaves_clock (run initial [Click])).
  reflexivity.
Defined.

End Playback_drop.

(** ** Session lifecycle and capture *)

Section Lifecycle.

Import LiveView.
Local Open Scope nat_scope.

(** [connect] has no guard: whatever the state, it creates one more output
    context and one more session and makes the references point to them. *)
Lemma connect_creates_session st :
  sessions (connect st) = sessions st ++ [newSession] /\
  contexts (connect st) = contexts st ++ [newContext] /\
  sessionPromiseRef (connect st) = Some (length (sessions st)) /\
  audioContextRef (connect st) = Some (length (contexts st)) /\
  captures (connect st) = captures st.
Proof. repeat split; reflexivity. Qed.

(** The button offers [connect] exactly when [isConnected] is false. *)
Lemma onClick_dispatch st :
  step st Click = if isConnected st then disconnect st else connect st.
Proof. reflexivity. Qed.

(** Captures are created by [onopen] only. *)
Lemma captures_created_by_onopen st e :
  (forall s, e <> SessionOpen s) ->
  length (captures (step st e)) = length (captures st).
Proof.
  intros Hne.
  destruct e as [| s | s | s d | k o now | s | s | c g | c f | t]; simpl.
  - unfold onClick. destruct (isConnected st); [| reflexivity].
    destruct (disconnect_frame st) as (_ & _ & _ & _ & -> & _). reflexivity.
  - reflexivity.
  - now destruct (Hne s).
  - unfold ofSession, onmessage.
    destruct (s <? length (sessions st)); [| reflexivity].
    destruct (audioContextRef st); [| reflexivity].
    destruct (JS.truthy d); reflexivity.
  - unfold onmessage_resume. destruct (decoding st !! k); [| reflexivity].
    destruct o; reflexivity.
  - unfold ofSession. destruct (s <? length (sessions st)); reflexivity.
  - unfold ofSession. destruct (s <? length (sessions st)); reflexivity.
  - unfold startAudioStream_resume.
    destruct (captures st !! c) as [cap |]; [| reflexivity].
    destruct (mic cap); try reflexivity.
    state_simpl. apply length_insert.
  - unfold onaudioprocess. destruct (captures st !! c) as [cap |]; [| reflexivity].
    destruct (processorConnected cap); reflexivity.
  - unfold onClick_catch. destruct (isConnected st).
    + destruct (disconnect_frame st) as (_ & _ & _ & _ & -> & _). reflexivity.
    + destruct t; reflexivity.
Qed.

(** No event touches a capture whose microphone is held: nothing runs the
    function [startAudioStream] returned. *)
Lemma acquired_capture_persists st e c cap :
  captures st !! c = Some cap -> mic cap = Acquired ->
  captures (step st e) !! c = Some cap.
Proof.
  intros Hc Hm.
  destruct e as [| s | s | s d | k o now | s | s | c' g | c' f | t]; simpl.
  - unfold onClick. destruct (isConnected st); [| exact Hc].
    destruct (disconnect_frame st) as (_ & _ & _ & _ & -> & _). exact Hc.
  - exact Hc.
  - unfold ofSession. destruct (s <? length (sessions st)); [| exact Hc].
    unfold onopen, startAudioStream. state_simpl.
    rewrite lookup_app_l; [exact Hc | eapply lookup_lt_Some, Hc].
  - unfold ofSession, onmessage.
    destruct (s <? length (sessions st)); [| exact Hc].
    destruct (audioContextRef st); [| exact Hc].
    destruct (JS.truthy d); exact Hc.
  - unfold onmessage_resume. destruct (decoding st !! k); [| exact Hc].
    destruct o; exact Hc.
  - unfold ofSession. destruct (s <? length (sessions st)); exact Hc.
  - unfold ofSession. destruct (s <? length (sessions st)); exact Hc.
  - unfold startAudioStream_resume.
    destruct (captures st !! c') as [cap' |] eqn:Hc'; [| exact Hc].
    destruct (mic cap') eqn:Hm'; try exact Hc.
    state_simpl. rewrite list_lookup_insert_ne; [exact Hc |].
    intros ->. rewrite Hc in Hc'. injection Hc' as ->. congruence.
  - unfold onaudioprocess. destruct (captures st !! c') as [cap' |]; [| exact Hc].
    destruct (processorConnected cap'); exact Hc.
  - unfold onClick_catch. destruct (isConnected st).
    + destruct (disconnect_frame st) as (_ & _ & _ & _ & -> & _). exact Hc.
    + destruct t; exact Hc.
Qed.

Lemma acquired_capture_persists_run tr : forall st c cap,
  captures st !! c = Some cap -> mic cap = Acquired ->
  captures (run st tr) !! c = Some cap.
Proof.
  induction tr as [| e tr IH]; intros st c cap Hc Hm; simpl; [exact Hc |].
  apply IH; [| exact Hm]. now apply acquired_capture_persists.
Qed.

(** C4, evaluated where the code departs from it: after a call went live
    and the button ended it, the state is Disconnected while the capture
    is as it was during the call (microphone held, processor and source
    connected, input context open), and it stays so whatever happens
    next.  The function [startAudioStream] returned would have released
    it. *)
Theorem capture_outlives_disconnect :
  let st := run initial (goLive ++ [Click]) in
  status (run initial goLive) = "Live"%string /\
  status st = "Disconnected"%string /\
  isConnected st = false /\
  captures st !! 0 = Some liveCapture /\
  (forall tr, captures (run st tr) !! 0 = Some liveCapture) /\
  mic (cleanup liveCapture) = Released /\
  processorConnected (cleanup liveCapture) = false.
Proof.
  repeat split.
  intros tr. now apply acquired_capture_persists_run.
Qed.

(** C5, evaluated where the code departs from it: a second click before
    [onopen] runs [connect] again.  Two sessions exist, none was asked to
    close, and once both opened each has its own capture and receives the
    microphone frames. *)
Theorem second_connect_while_connecting :
  let st := run initial [Click; Click] in
  let both :=
    run st [SessionOpen 0; SessionResolved 0; SessionOpen 1; SessionResolved 1;
            UserMedia 0 true; UserMedia 1 true;
            AudioProcess 0 [1%Q]; AudioProcess 1 [1%Q]] in
  status (run initial [Click]) = "Connecting..."%string /\
  isConnected (run initial [Click]) = false /\
  sessions st = [newSession; newSession] /\
  sessionPromiseRef st = Some 1 /\
  sessions both =
    [ {| resolved := true; reactions := []; realtimeInput := [[32767%Z]];
         sessionCloseCalls := 0 |};
      {| resolved := true; reactions := []; realtimeInput := [[32767%Z]];
         sessionCloseCalls := 0 |} ] /\
  mic <$> captures both = [Acquired; Acquired].
Proof. repeat split. Qed.

(** What does hold of the teardown: without a session it changes nothing,
    and a second call leaves the cells of the component as the first
    did. *)
Lemma disconnect_never_connected : disconnect initial = initial.
Proof. reflexivity. Qed.

Lemma disconnect_twice_cells st :
  let once := disconnect st in
  let twice := disconnect once in
  isConnected twice = isConnected once /\
  status twice = status once /\
  audioContextRef twice = audioContextRef once /\
  sessionPromiseRef twice = sessionPromiseRef once /\
  nextStartTimeRef twice = nextStartTimeRef once /\
  captures twice = captures st.
Proof.
  intros once twice. subst once twice.
  destruct (disconnect_frame (disconnect st)) as (Ea & Es & En & _ & Ec & _).
  destruct (disconnect_frame st) as (_ & _ & _ & _ & Ec' & _).
  rewrite Ea, Es, En, Ec, Ec'.
  assert (Hcells : forall s, isConnected (disconnect s) = false /\
                             status (disconnect s) = "Disconnected"%string).
  { intros s. unfold disconnect.
    destruct (sessionPromiseRef s); state_simpl;
      destruct (audioContextRef s); state_simpl; split; reflexivity. }
  destruct (Hcells st) as [-> ->]. destruct (Hcells (disconnect st)) as [-> ->].
  repeat split; reflexivity.
Qed.

(** C7, evaluated where the code departs from it: two [disconnect] calls
    in succession after a call went live.  The microphone is still held
    and the capture graph still connected; the second call closed an
    output context that was closed already. *)
Theorem disconnect_twice_keeps_microphone :
  let st := disconnect (disconnect (run initial goLive)) in
  captures st !! 0 = Some liveCapture /\
  mic liveCapture = Acquired /\
  closeCalls <$> contexts st !! 0 = Some 2 /\
  sessionCloseCalls <$> sessions st !! 0 = Some 2 /\
  status st = "Disconnected"%string.
Proof. repeat split. Qed.

End Lifecycle.

(** ** Frames captured before the session promise fulfils *)

Section Pending_frames.

Import LiveView.
Local Open Scope nat_scope.

Lemma framesOf_app rs1 rs2 : framesOf (rs1 ++ rs2) = framesOf rs1 ++ framesOf rs2.
Proof. unfold framesOf. apply flat_map_app. Qed.

Lemma runReaction_fold rs : forall acc,
  realtimeInput (fold_left runReaction rs acc) = realtimeInput acc ++ framesOf rs /\
  reactions (fold_left runReaction rs acc) = reactions acc /\
  resolved (fold_left runReaction rs acc) = resolved acc.
Proof.
  induction rs as [| r rs IH]; intros acc; simpl.
  - now rewrite app_nil_r.
  - destruct (IH (runReaction acc r)) as (-> & -> & ->).
    destruct r; simpl; rewrite <- ?app_assoc; repeat split; reflexivity.
Qed.

(** When the promise fulfils, every waiting frame is handed to
    [sendRealtimeInput], in the order of registration. *)
Lemma fulfil_sends_pending (s : Session) :
  resolved s = false ->
  realtimeInput (fulfil s) = realtimeInput s ++ pendingFrames s /\
  reactions (fulfil s) = [] /\
  resolved (fulfil s) = true.
Proof.
  intros Hr. unfold fulfil, pendingFrames. rewrite Hr.
  destruct (runReaction_fold (reactions s)
              {| resolved := true; reactions := [];
                 realtimeInput := realtimeInput s;
                 sessionCloseCalls := sessionCloseCalls s |}) as (-> & -> & ->).
  repeat split; reflexivity.
Qed.

Lemma disconnect_sessions st :
  sessions (disconnect st)
  = match sessionPromiseRef st with
    | Some p => alter (thenDo CloseSession) p (sessions st)
    | None => sessions st
    end.
Proof.
  unfold disconnect.
  destruct (sessionPromiseRef st); state_simpl;
    destruct (audioContextRef st); reflexivity.
Qed.

End Pending_frames.

Section Pending_frames_claim.

Import LiveView.
Local Open Scope nat_scope.


















End Pending_frames_claim.

(** ** Video generation *)

Section Video.

Import GeminiService.
Local Open Scope string_scope.

Lemma pollLoop_done answers operation :
  done operation = true -> pollLoop answers operation = (Some operation, []).
Proof. intros Hd. destruct answers; simpl; now rewrite Hd. Qed.

Lemma pollLoop_completes (waiting : list Operation) :
  forall operation answers final later,
    (operation :: answers = waiting ++ final :: later)%list ->
    Forall notDone waiting ->
    done final = true ->
    pollLoop answers operation = (Some final, pollsOf waiting).
Proof.
  induction waiting as [| w ws IH]; intros operation answers final later Heq Hw Hd.
  - simpl in Heq. injection Heq as H1 H2. subst. now apply pollLoop_done.
  - simpl in Heq. injection Heq as H1 Hans. subst operation.
    pose proof (Forall_inv Hw) as Hnd. pose proof (Forall_inv_tail Hw) as Hws.
    destruct answers as [| next rest].
    { destruct ws; discriminate Hans. }
    simpl. rewrite Hnd.
    rewrite (IH next rest final later Hans Hws Hd). reflexivity.
Qed.

(** While no operation is done the loop goes on and nothing is fetched. *)
Lemma pollLoop_waits (answers : list Operation) :
  forall operation,
    Forall notDone (operation :: answers) ->
    fst (pollLoop answers operation) = None /\
    forall url, ~ In (CallFetch url) (snd (pollLoop answers operation)).
Proof.
  induction answers as [| next rest IH]; intros operation Hall;
    inversion Hall as [| ? ? Hnd Hrest]; subst; simpl; rewrite Hnd.
  - split; [reflexivity |]. intros url [H | [H | []]]; discriminate.
  - destruct (IH next Hrest) as [Hnone Hnf].
    destruct (pollLoop rest next) as [final effects]. simpl in *.
    split; [exact Hnone |].
    intros url [H | [H | H]]; try discriminate. exact (Hnf url H).
Qed.

Lemma generateVideo_completed env prompt ar img waiting final later :
  snapshots env (request prompt ar img) = (waiting ++ final :: later)%list ->
  Forall notDone waiting ->
  done final = true ->
  generateVideo env prompt ar img
  = (fst (retrieve env final),
     (CallGenerateVideos (request prompt ar img)
        :: pollsOf waiting ++ snd (retrieve env final))%list).
Proof.
  intros Heq Hw Hd. unfold generateVideo.
  rewrite (pollLoop_completes waiting _ _ final later Heq Hw Hd).
  destruct (retrieve env final); reflexivity.
Qed.

(** C9: when the operations the function sees are first [waiting], none
    of them done, and then [final], which is done, the function makes
    exactly one turn per waiting operation, each a 5000 ms wait followed
    by a poll of that operation, and whatever it fetches comes after all
    of them and is the link of [final]: with a link it fetches the link
    with the key appended and makes the object URL, and without one it
    fetches nothing.  While no operation is done it keeps polling and
    fetches nothing. *)
Theorem generateVideo_polls_until_done
    env prompt ar img (waiting : list Operation) final later :
  snapshots env (request prompt ar img) = (waiting ++ final :: later)%list ->
  Forall notDone waiting ->
  done final = true ->
  exists fetched,
    snd (generateVideo env prompt ar img)
    = (CallGenerateVideos (request prompt ar img)
         :: pollsOf waiting ++ fetched)%list /\
    length (pollsOf waiting) = (2 * length waiting)%nat /\
    (forall url, ~ In (CallFetch url) (pollsOf waiting)) /\
    (if JS.truthy (downloadLink final)
     then exists link,
         downloadLink final = Some link /\
         fetched = [CallFetch (link ++ "&key=" ++ API_KEY env);
                    CallCreateObjectURL
                      (fetchBlob env (link ++ "&key=" ++ API_KEY env))]
     else fetched = []) /\
    (forall env', Forall notDone (snapshots env' (request prompt ar img)) ->
       fst (generateVideo env' prompt ar img) = Polling /\
       forall url, ~ In (CallFetch url) (snd (generateVideo env' prompt ar img))).
Proof.
  intros Heq Hw Hd. exists (snd (retrieve env final)).
  rewrite (generateVideo_completed _ _ _ _ _ _ _ Heq Hw Hd). simpl.
  split; [reflexivity |]. split; [| split; [| split]].
  - clear. induction waiting as [| w ws IH]; simpl; [reflexivity |].
    rewrite IH. lia.
  - clear. intros url. induction waiting as [| w ws IH]; simpl; [tauto |].
    intros [H | [H | H]]; try discriminate. exact (IH H).
  - unfold retrieve. destruct (downloadLink final) as [link |]; [| reflexivity].
    destruct (JS.truthy (Some link)); [| reflexivity].
    exists link. split; reflexivity.
  - intros env' Hall. unfold generateVideo.
    destruct (pollLoop_waits (answers env') (generateVideos env' (request prompt ar img)) Hall)
      as [Hnone Hnf].
    destruct (pollLoop (answers env') (generateVideos env' (request prompt ar img)))
      as [final' effects]. simpl in *. subst final'. simpl.
    split; [reflexivity |].
    intros url [H | H]; [discriminate | exact (Hnf url H)].
Qed.

(** C10: once the polled operation is done, the function throws the error
    with message [Video generation failed] exactly when the done
    operation carries no link (the [uri] reached through the optional
    chain is missing or empty); with a link it returns the object URL of
    what was fetched from the link with the key appended. *)
Theorem generateVideo_throws_iff_no_link
    env prompt ar img (waiting : list Operation) final later :
  snapshots env (request prompt ar img) = (waiting ++ final :: later)%list ->
  Forall notDone waiting ->
  done final = true ->
  let outcome := fst (generateVideo env prompt ar img) in
  (outcome = Threw "Video generation failed"
     <-> JS.truthy (downloadLink final) = false) /\
  (forall link,
     downloadLink final = Some link -> link <> EmptyString ->
     outcome
     = Returned (createObjectURL env
                   (fetchBlob env (link ++ "&key=" ++ API_KEY env)))) /\
  (JS.truthy (downloadLink final) = true ->
     exists url, outcome = Returned url).
Proof.
  intros Heq Hw Hd outcome. subst outcome.
  rewrite (generateVideo_completed _ _ _ _ _ _ _ Heq Hw Hd). simpl.
  unfold retrieve.
  destruct (downloadLink final) as [link |] eqn:Hl.
  - destruct link as [| ch rest]; simpl.
    + split; [tauto |]. split; [| discriminate].
      intros link [= <-] Hne. now destruct Hne.
    + split; [split; discriminate |]. split.
      * intros link [= <-] _. reflexivity.
      * intros _. eexists. reflexivity.
  - simpl. split; [tauto |]. split; [discriminate | discriminate].
Qed.

Lemma generateVideo_polls_until_done_witness :
  exists fetched,
    snd (generateVideo sampleEnv "a cat" Landscape None)
    = (CallGenerateVideos (request "a cat" Landscape None)
         :: [SetTimeout 5000; CallGetVideosOperation waitingOperation;
             SetTimeout 5000; CallGetVideosOperation waitingOperation]
         ++ fetched)%list /\
    fetched = [CallFetch "https://host/v1?alt=media&key=k";
               CallCreateObjectURL [Byte.x00; Byte.x01]].
Proof.
  destruct (generateVideo_polls_until_done sampleEnv "a cat" Landscape None
              [waitingOperation; waitingOperation] finishedOperation []
              eq_refl
              ltac:(repeat constructor)
              eq_refl) as (fetched & Heff & _ & _ & Hf & _).
  exists fetched. split; [exact Heff |].
  simpl in Hf. destruct Hf as (link & Hl & Hf).
  injection Hl as Hl. subst link. exact Hf.
Defined.

Lemma generateVideo_throws_iff_no_link_witness :
  fst (generateVideo sampleEnv "a cat" Landscape None) = Returned "blob:video".
Proof.
  destruct (generateVideo_throws_iff_no_link sampleEnv "a cat" Landscape None
              [waitingOperation; waitingOperation] finishedOperation []
              eq_refl
              ltac:(repeat constructor)
              eq_refl) as (_ & Hret & _).
  exact (Hret "https://host/v1?alt=media" eq_refl ltac:(discriminate)).
Defined.

End Video.

(** ** Strings split at a separator *)

Section Split.

Local Open Scope string_scope.

Lemma split_not_nil sep s : JS.split sep s <> [].
Proof.
  destruct s as [| c rest]; simpl; [discriminate |].
  destruct (Ascii.eqb c sep); [discriminate |].
  destruct (JS.split sep rest); discriminate.
Qed.

Lemma split_absent sep s : JS.occurs sep s = false -> JS.split sep s = [s].
Proof.
  induction s as [| c rest IH]; simpl; [reflexivity |].
  destruct (Ascii.eqb c sep); [discriminate |].
  intros H. now rewrite (IH H).
Qed.

Lemma split_at_first sep a b :
  JS.occurs sep a = false ->
  JS.split sep (a ++ String sep b) = a :: JS.split sep b.
Proof.
  induction a as [| c rest IH]; simpl.
  - intros _. now rewrite Ascii.eqb_refl.
  - destruct (Ascii.eqb c sep); [discriminate |].
    intros H. now rewrite (IH H).
Qed.

Lemma occurs_app c a b :
  JS.occurs c (a ++ b) = JS.occurs c a || JS.occurs c b.
Proof.
  induction a as [| d rest IH]; simpl; [reflexivity |].
  destruct (Ascii.eqb d c); [reflexivity | exact IH].
Qed.

(** The first piece of a split holds no character the string lacks. *)
Lemma occurs_first_piece c sep s piece pieces :
  JS.occurs c s = false ->
  JS.split sep s = piece :: pieces ->
  JS.occurs c piece = false.
Proof.
  revert piece pieces. induction s as [| d rest IH]; simpl; intros piece pieces Hc Hs.
  - injection Hs as <- _. reflexivity.
  - destruct (Ascii.eqb d c) eqn:Hdc; [discriminate |].
    destruct (Ascii.eqb d sep).
    + injection Hs as <- _. reflexivity.
    + destruct (JS.split sep rest) as [| p ps] eqn:Hr.
      * injection Hs as <- _. simpl. now rewrite Hdc.
      * injection Hs as <- _. simpl. rewrite Hdc. exact (IH p ps Hc eq_refl).
Qed.

End Split.

(** ** Requests built by the service module *)

Section Service_requests.

Import GeminiService.
Local Open Scope string_scope.

Lemma afterComma_data_url header payload :
  JS.occurs "," header = false ->
  JS.occurs "," payload = false ->
  afterComma (header ++ "," ++ payload) = Some payload.
Proof.
  intros Hh Hp. unfold afterComma.
  change (header ++ "," ++ payload) with (header ++ String "," payload).
  rewrite (split_at_first _ _ _ Hh), (split_absent _ _ Hp). reflexivity.
Qed.

Lemma afterComma_bare s : JS.occurs "," s = false -> afterComma s = None.
Proof. intros H. unfold afterComma. now rewrite (split_absent _ _ H). Qed.

Lemma append_sep_not_empty a c b : a ++ String c b <> EmptyString.
Proof. destruct a; discriminate. Qed.

Lemma truthy_not_empty s : s <> EmptyString -> JS.truthy (Some s) = true.
Proof. destruct s; [congruence | reflexivity]. Qed.

(** X1: [generateVideo] strips the header of a data URL given as start
    image: with a header and a payload free of commas and a payload that
    is not empty, the request carries the payload alone, always declared
    [image/png], and the whole call behaves as for the bare payload.  With
    an empty payload the entire text, header and comma included, is sent
    as the image bytes. *)
Theorem generateVideo_strips_data_url_header
    env prompt ar (header payload : string) :
  JS.occurs "," header = false ->
  JS.occurs "," payload = false ->
  payload <> EmptyString ->
  image (request prompt ar (Some (header ++ "," ++ payload)))
    = Some {| imageBytes := payload; mimeType := "image/png" |} /\
  generateVideo env prompt ar (Some (header ++ "," ++ payload))
    = generateVideo env prompt ar (Some payload) /\
  image (request prompt ar (Some (header ++ ",")))
    = Some {| imageBytes := header ++ ","; mimeType := "image/png" |}.
Proof.
  intros Hh Hp Hne.
  assert (Hreq : request prompt ar (Some (header ++ "," ++ payload))
                 = request prompt ar (Some payload)).
  { unfold request.
    change (header ++ "," ++ payload) with (header ++ String "," payload).
    rewrite (truthy_not_empty _ (append_sep_not_empty header "," payload)).
    rewrite (truthy_not_empty _ Hne).
    rewrite (split_at_first _ _ _ Hh), (split_absent _ _ Hp). simpl.
    unfold JS.orElse. rewrite (truthy_not_empty _ Hne). simpl.
    reflexivity. }
  split; [| split].
  - rewrite Hreq. unfold request. rewrite (truthy_not_empty _ Hne).
    rewrite (split_absent _ _ Hp). reflexivity.
  - unfold generateVideo. now rewrite Hreq.
  - unfold request.
    change (header ++ ",") with (header ++ String "," EmptyString).
    rewrite (truthy_not_empty _ (append_sep_not_empty header "," EmptyString)).
    rewrite (split_at_first _ _ _ Hh). reflexivity.
Qed.

Lemma generateVideo_strips_data_url_header_witness :
  image (request "a cat" Landscape (Some "data:image/jpeg;base64,QUJD"))
  = Some {| imageBytes := "QUJD"; mimeType := "image/png" |}.
Proof.
  exact (proj1 (generateVideo_strips_data_url_header sampleEnv "a cat" Landscape
                  "data:image/jpeg;base64" "QUJD"
                  eq_refl eq_refl ltac:(discriminate))).
Defined.

End Service_requests.

Section Service_content.

Import GeminiService.
Local Open Scope string_scope.

Lemma string_append_assoc (a b c : string) : (a ++ b) ++ c = a ++ b ++ c.
Proof. induction a as [| d a IH]; simpl; [reflexivity | now rewrite IH]. Qed.

Lemma videoMimeType_data_url mt rest :
  mt <> EmptyString ->
  JS.occurs ";" mt = false ->
  JS.occurs ":" mt = false ->
  videoMimeType ("data:" ++ mt ++ ";" ++ rest) = mt.
Proof.
  intros Hne Hsemi Hcolon. unfold videoMimeType.
  change ("data:" ++ mt ++ ";" ++ rest) with (("data:" ++ mt) ++ String ";" rest).
  rewrite split_at_first.
  2:{ rewrite occurs_app. now rewrite Hsemi. }
  cbn [lookup list_lookup].
  change ("data:" ++ mt) with ("data" ++ String ":" mt).
  rewrite (split_at_first ":" "data" mt eq_refl), (split_absent _ _ Hcolon).
  cbn [lookup list_lookup]. unfold JS.orElse.
  now rewrite (truthy_not_empty _ Hne).
Qed.

Lemma videoMimeType_default s :
  JS.occurs ":" s = false -> videoMimeType s = "video/mp4".
Proof.
  intros Hc. unfold videoMimeType.
  destruct (JS.split ";" s) as [| head pieces] eqn:Hs.
  { now destruct (split_not_nil ";" s). }
  cbn [lookup list_lookup].
  rewrite (split_absent _ _ (occurs_first_piece _ _ _ _ _ Hc Hs)).
  reflexivity.
Qed.

(** X2: for a data URL [data:<type>;base64,<payload>] whose type is not
    empty and holds no colon, semicolon or comma and whose payload holds
    no comma, [analyzeVideo] sends the payload under the type of the URL,
    while [analyzeImage] and [editImage] send the payload declared as
    [image/jpeg] whatever the type of the URL is. *)
Theorem analysis_requests_parse_data_url (mt payload prompt : string) :
  mt <> EmptyString ->
  JS.occurs ";" mt = false ->
  JS.occurs ":" mt = false ->
  JS.occurs "," mt = false ->
  JS.occurs "," payload = false ->
  let url := "data:" ++ mt ++ ";base64," ++ payload in
  contentParts (analyzeVideo_request url prompt) !! 0%nat
    = Some (InlineDataPart mt (Some payload)) /\
  contentParts (analyzeImage_request url prompt) !! 0%nat
    = Some (InlineDataPart "image/jpeg" (Some payload)) /\
  contentParts (editImage_request url prompt) !! 0%nat
    = Some (InlineDataPart "image/jpeg" (Some payload)).
Proof.
  intros Hne Hsemi Hcolon Hcomma Hp url.
  assert (Hdata : afterComma url = Some payload).
  { subst url.
    replace ("data:" ++ mt ++ ";base64," ++ payload)
      with (("data:" ++ mt ++ ";base64") ++ "," ++ payload).
    - apply afterComma_data_url; [| exact Hp].
      rewrite !occurs_app, Hcomma. reflexivity.
    - rewrite !string_append_assoc. reflexivity. }
  assert (Hmime : videoMimeType url = mt).
  { subst url. now apply (videoMimeType_data_url mt ("base64," ++ payload)). }
  unfold analyzeVideo_request, analyzeImage_request, editImage_request.
  cbn [contentParts lookup list_lookup]. rewrite Hdata, Hmime.
  repeat split; reflexivity.
Qed.

Lemma analysis_requests_parse_data_url_witness :
  contentParts (analyzeVideo_request "data:video/webm;base64,GkXf" "") !! 0%nat
  = Some (InlineDataPart "video/webm" (Some "GkXf")).
Proof.
  exact (proj1 (analysis_requests_parse_data_url "video/webm" "GkXf" ""
                  ltac:(discriminate) eq_refl eq_refl eq_refl eq_refl)).
Defined.

(** X3: a text without a comma, such as bare base64, loses its content:
    [analyzeImage], [editImage] and [analyzeVideo] send an inline part
    whose data is [undefined] (there is no fallback as in
    [generateVideo]), and without a colon [analyzeVideo] declares it
    [video/mp4]. *)
Theorem analysis_requests_drop_bare_base64 (s prompt : string) :
  JS.occurs "," s = false ->
  contentParts (analyzeImage_request s prompt) !! 0%nat
    = Some (InlineDataPart "image/jpeg" None) /\
  contentParts (editImage_request s prompt) !! 0%nat
    = Some (InlineDataPart "image/jpeg" None) /\
  contentParts (analyzeVideo_request s prompt) !! 0%nat
    = Some (InlineDataPart (videoMimeType s) None) /\
  (JS.occurs ":" s = false -> videoMimeType s = "video/mp4").
Proof.
  intros Hc.
  unfold analyzeVideo_request, analyzeImage_request, editImage_request.
  cbn [contentParts lookup list_lookup]. rewrite (afterComma_bare _ Hc).
  repeat split. apply videoMimeType_default.
Qed.

Lemma analysis_requests_drop_bare_base64_witness :
  contentParts (analyzeImage_request "QUJD" "what is this") !! 0%nat
  = Some (InlineDataPart "image/jpeg" None).
Proof.
  exact (proj1 (analysis_requests_drop_bare_base64 "QUJD" "what is this" eq_refl)).
Defined.

Lemma editImage_loop_found (ps : list ResponsePart) :
  forall url,
    editImage_loop ps = Some url <->
    exists i part d,
      ps !! i = Some part /\ inlineData part = Some d /\
      Forall noInline (take i ps) /\
      url = "data:image/png;base64," ++ JS.interpolate (inlineBytes d).
Proof.
  induction ps as [| p ps IH]; intros url; cbn [editImage_loop].
  - split; [discriminate |]. intros (i & part & d & Hi & _). discriminate.
  - destruct (inlineData p) as [d |] eqn:Hd.
    + split.
      * intros [= <-]. exists 0%nat, p, d. repeat split; auto; constructor.
      * intros (i & part & d' & Hi & Hd' & Hall & ->).
        destruct i as [| i].
        -- simpl in Hi. injection Hi as <-. rewrite Hd in Hd'.
           injection Hd' as <-. reflexivity.
        -- simpl in Hall. inversion Hall as [| ? ? Hp _]; subst.
           unfold noInline in Hp. congruence.
    + rewrite IH. split.
      * intros (i & part & d & Hi & Hd' & Hall & ->).
        exists (S i), part, d. repeat split; auto.
        simpl. constructor; [exact Hd | exact Hall].
      * intros (i & part & d & Hi & Hd' & Hall & ->).
        destruct i as [| i].
        -- simpl in Hi. injection Hi as <-. congruence.
        -- exists i, part, d. repeat split; auto.
           simpl in Hall. now inversion Hall.
Qed.

Lemma editImage_loop_none (ps : list ResponsePart) :
  editImage_loop ps = None <-> Forall noInline ps.
Proof.
  induction ps as [| p ps IH]; cbn [editImage_loop].
  - split; [constructor | reflexivity].
  - destruct (inlineData p) as [d |] eqn:Hd.
    + split; [discriminate |]. intros Hall.
      inversion Hall as [| ? ? Hp _]; subst. unfold noInline in Hp. congruence.
    + rewrite IH. split.
      * intros Hall. constructor; [exact Hd | exact Hall].
      * intros Hall. now inversion Hall.
Qed.

(** X4: [editImage] returns the PNG data URL of the first part of the
    first candidate that has inline data, parts without inline data before
    it are passed over and parts after it are ignored; it throws
    [No image returned] exactly when no part of the first candidate has
    inline data, which includes a response without candidates, content or
    parts. *)
Theorem editImage_returns_first_inline_part
    (generateContent : ContentRequest -> ContentResponse)
    (imageBase64 prompt : string) :
  let ps := firstParts (generateContent (editImage_request imageBase64 prompt)) in
  (forall url,
     editImage generateContent imageBase64 prompt = Returned url <->
     exists i part d,
       ps !! i = Some part /\ inlineData part = Some d /\
       Forall noInline (take i ps) /\
       url = "data:image/png;base64," ++ JS.interpolate (inlineBytes d)) /\
  (editImage generateContent imageBase64 prompt = Threw "No image returned"
     <-> Forall noInline ps) /\
  (candidates (generateContent (editImage_request imageBase64 prompt)) = None ->
     editImage generateContent imageBase64 prompt = Threw "No image returned").
Proof.
  intros ps. unfold editImage. fold ps.
  split; [| split].
  - intros url. rewrite <- editImage_loop_found.
    destruct (editImage_loop ps); split; congruence.
  - rewrite <- editImage_loop_none.
    destruct (editImage_loop ps); split; congruence.
  - intros Hc. subst ps. unfold firstParts. rewrite Hc. reflexivity.
Qed.

Lemma editImage_returns_first_inline_part_witness :
  editImage (fun _ => {| candidates := None; responseText := Some "sorry" |})
    "data:image/png;base64,QUJD" "make it blue"
  = Threw "No image returned".
Proof.
  exact (proj2 (proj2 (editImage_returns_first_inline_part
                         (fun _ => {| candidates := None;
                                      responseText := Some "sorry" |})
                         "data:image/png;base64,QUJD" "make it blue"))
           eq_refl).
Defined.

End Service_content.

(** ** The chat request *)

Section Chat_request.

Import GeminiService.
Local Open Scope string_scope.

(** X5: whatever the options, [sendChatMessage] asks for the pro model
    only without tools and without a tool configuration, and then always
    with the thinking budget; as soon as search or maps is wanted the
    model is [gemini-2.5-flash], whatever the thinking and fast flags say;
    the tools are the search tool and then the maps tool, each exactly
    when its flag is set, and [undefined] rather than an empty list. *)
Theorem sendChatMessage_tools_force_flash
    (prompt : string) (history : list string) (o : ChatOptions) :
  let call := sendChatMessage prompt history o in
  (useSearch o || useMaps o = true -> chatModel call = "gemini-2.5-flash") /\
  (chatModel call = "gemini-3-pro-preview" ->
     tools (chatConfig call) = None /\
     toolConfig (chatConfig call) = None /\
     thinkingConfig (chatConfig call) = Some 32768%Z) /\
  tools (chatConfig call)
    = match (if useSearch o then [googleSearch] else [])
              ++ (if useMaps o then [googleMaps] else []) with
      | [] => None
      | ts => Some ts
      end%list /\
  (useSearch o || useMaps o = false ->
     chatModel call
     = if useThinking o then "gemini-3-pro-preview"
       else if useFast o then "gemini-2.5-flash-lite-latest"
       else "gemini-2.5-flash").
Proof.
  destruct o as [th se ma fa loc]. unfold sendChatMessage. cbn [useThinking useSearch useMaps useFast location].
  destruct th, se, ma, fa, loc; cbn; repeat split; intros; try discriminate; reflexivity.
Qed.

Lemma sendChatMessage_tools_force_flash_witness :
  chatModel (sendChatMessage "where is the nearest cafe" []
               {| useThinking := true; useSearch := false; useMaps := true;
                  useFast := true; location := None |})
  = "gemini-2.5-flash".
Proof.
  exact (proj1 (sendChatMessage_tools_force_flash "where is the nearest cafe" []
                  {| useThinking := true; useSearch := false; useMaps := true;
                     useFast := true; location := None |}) eq_refl).
Defined.

(** X6: the thinking budget of 32768 is attached exactly when
    [useThinking] is set, also when search or maps replaced the pro model
    by [gemini-2.5-flash]; the tool configuration is the given location
    exactly when maps is wanted and a location is given, and a location
    without maps is ignored. *)
Theorem sendChatMessage_thinking_and_location
    (prompt : string) (history : list string) (o : ChatOptions) :
  let call := sendChatMessage prompt history o in
  (thinkingConfig (chatConfig call) = Some 32768%Z <-> useThinking o = true) /\
  (thinkingConfig (chatConfig call) = None <-> useThinking o = false) /\
  (useThinking o = true -> useSearch o || useMaps o = true ->
     chatModel call = "gemini-2.5-flash" /\
     thinkingConfig (chatConfig call) = Some 32768%Z) /\
  toolConfig (chatConfig call)
    = (if useMaps o
       then match location o with
            | Some l => Some {| latitude := lat l; longitude := lng l |}
            | None => None
            end
       else None) /\
  chatHistory call = history /\
  chatMessage call = prompt.
Proof.
  destruct o as [th se ma fa loc]. unfold sendChatMessage. cbn [useThinking useSearch useMaps useFast location].
  destruct th, se, ma, fa, loc; cbn; repeat split; intros; try discriminate; reflexivity.
Qed.

Lemma sendChatMessage_thinking_and_location_witness :
  chatModel (sendChatMessage "latest news" []
               {| useThinking := true; useSearch := true; useMaps := false;
                  useFast := false; location := None |})
  = "gemini-2.5-flash" /\
  thinkingConfig (chatConfig (sendChatMessage "latest news" []
               {| useThinking := true; useSearch := true; useMaps := false;
                  useFast := false; location := None |}))
  = Some 32768%Z.
Proof.
  exact (proj1 (proj2 (proj2 (sendChatMessage_thinking_and_location "latest news" []
                  {| useThinking := true; useSearch := true; useMaps := false;
                     useFast := false; location := None |}))) eq_refl eq_refl).
Defined.

End Chat_request.

(** ** The live-voice component: further invariants *)

Section LiveView_more.

Import LiveView.
Local Open Scope nat_scope.

Lemma statusAgrees_step st e : statusAgrees st -> statusAgrees (step st e).
Proof.
  intros [Hiff Hval].
  destruct e as [| s | s | s d | k o now | s | s | c g | c f | t]; simpl.
  - unfold onClick. destruct (isConnected st) eqn:Hc.
    + unfold disconnect.
      destruct (sessionPromiseRef st); state_simpl;
        destruct (audioContextRef st); state_simpl;
        (split; [split; discriminate | auto]).
    + unfold connect. state_simpl. rewrite Hc.
      split; [split; discriminate | auto].
  - split; assumption.
  - unfold ofSession. destruct (s <? length (sessions st)); [| split; assumption].
    unfold onopen, startAudioStream. state_simpl. split; [tauto | auto].
  - unfold ofSession, onmessage.
    destruct (s <? length (sessions st)); [| split; assumption].
    destruct (audioContextRef st); [| split; assumption].
    destruct (JS.truthy d); split; assumption.
  - unfold onmessage_resume. destruct (decoding st !! k); [| split; assumption].
    destruct o; split; assumption.
  - unfold ofSession. destruct (s <? length (sessions st)); [| split; assumption].
    unfold onclose. state_simpl. split; [split; discriminate | auto].
  - unfold ofSession. destruct (s <? length (sessions st)); [| split; assumption].
    unfold onerror. state_simpl. split; [split; discriminate | auto].
  - unfold startAudioStream_resume.
    destruct (captures st !! c) as [cap |]; [| split; assumption].
    destruct (mic cap); split; assumption.
  - unfold onaudioprocess.
    destruct (captures st !! c) as [cap |]; [| split; assumption].
    destruct (processorConnected cap); split; assumption.
  - unfold onClick_catch. destruct (isConnected st) eqn:Hc.
    + unfold disconnect.
      destruct (sessionPromiseRef st); state_simpl;
        destruct (audioContextRef st); state_simpl;
        (split; [split; discriminate | auto]).
    + destruct (connect_catch_frame t st) as (_ & _ & _ & _ & Hi & Hs).
      unfold statusAgrees. rewrite Hi, Hs, Hc.
      split; [split; discriminate | auto 8].
Qed.

(** X7: in every state the component can reach, a [connect] that threw
    included, [isConnected] is true exactly when the status text is
    [Live], and the status text is one of [Disconnected], [Connecting...],
    [Live], [Error] and [Failed to connect]. *)
Theorem status_live_iff_connected (tr : list Event) :
  let st := run initial tr in
  (isConnected st = true <-> status st = "Live"%string) /\
  (status st = "Disconnected"%string \/ status st = "Connecting..."%string \/
   status st = "Live"%string \/ status st = "Error"%string \/
   status st = "Failed to connect"%string).
Proof.
  simpl. change (statusAgrees (run initial tr)).
  assert (Hrun : forall st, statusAgrees st -> statusAgrees (run st tr)).
  { induction tr as [| e tr IH]; intros st Hst; simpl; [exact Hst |].
    apply IH, statusAgrees_step, Hst. }
  apply Hrun. split; [split; discriminate | auto].
Qed.

End LiveView_more.

Section LiveView_capture.

Import LiveView.
Local Open Scope nat_scope.

Lemma heldOpen_step st e :
  Forall heldOpen (captures st) -> Forall heldOpen (captures (step st e)).
Proof.
  intros H.
  destruct e as [| s | s | s d | k o now | s | s | c g | c f | t]; simpl.
  - unfold onClick. destruct (isConnected st); [| exact H].
    destruct (disconnect_frame st) as (_ & _ & _ & _ & -> & _). exact H.
  - exact H.
  - unfold ofSession. destruct (s <? length (sessions st)); [| exact H].
    unfold onopen, startAudioStream. state_simpl.
    apply Forall_app. split; [exact H |].
    repeat constructor; simpl; discriminate.
  - unfold ofSession, onmessage.
    destruct (s <? length (sessions st)); [| exact H].
    destruct (audioContextRef st); [| exact H].
    destruct (JS.truthy d); exact H.
  - unfold onmessage_resume. destruct (decoding st !! k); [| exact H].
    destruct o; exact H.
  - unfold ofSession. destruct (s <? length (sessions st)); exact H.
  - unfold ofSession. destruct (s <? length (sessions st)); exact H.
  - unfold startAudioStream_resume.
    destruct (captures st !! c) as [cap |] eqn:Hc; [| exact H].
    destruct (mic cap) eqn:Hm; try exact H.
    state_simpl. apply Forall_insert; [exact H |].
    destruct (Forall_lookup_1 _ _ _ _ H Hc) as (_ & Hctx & Hp).
    destruct g; repeat split; simpl; try discriminate; auto.
    + intros Hpc. apply Hp in Hpc. congruence.
  - unfold onaudioprocess. destruct (captures st !! c) as [cap |]; [| exact H].
    destruct (processorConnected cap); exact H.
  - unfold onClick_catch. destruct (isConnected st).
    + destruct (disconnect_frame st) as (_ & _ & _ & _ & -> & _). exact H.
    + destruct t; exact H.
Qed.

(** X8: in no state the component can reach has a microphone stream been
    released or an input context been closed, whatever was clicked and
    whatever the session reported; and the capture graph is connected
    exactly for the captures whose microphone was granted. *)
Theorem capture_is_never_released (tr : list Event) (c : nat) (cap : Capture) :
  captures (run initial tr) !! c = Some cap ->
  mic cap <> Released /\
  inputContextClosed cap = false /\
  (processorConnected cap = true <-> mic cap = Acquired).
Proof.
  assert (Hrun : forall st, Forall heldOpen (captures st) ->
                            Forall heldOpen (captures (run st tr))).
  { induction tr as [| e tr IH]; intros st Hst; simpl; [exact Hst |].
    apply IH, heldOpen_step, Hst. }
  intros Hc.
  exact (Forall_lookup_1 _ _ _ _ (Hrun initial (Forall_nil_2 _)) Hc).
Qed.

Lemma capture_is_never_released_witness :
  mic liveCapture <> Released /\
  inputContextClosed liveCapture = false /\
  (processorConnected liveCapture = true <-> mic liveCapture = Acquired).
Proof.
  exact (capture_is_never_released
           (goLive ++ [Click; SessionClose 0; SessionError 0]) 0 liveCapture
           eq_refl).
Defined.

End LiveView_capture.

Section LiveView_schedule.

Import LiveView.
Local Open Scope Q_scope.

Lemma resume_schedules st k ctx buffer now :
  wellFormed st ->
  decoding st !! k = Some ctx ->
  let start := Qmax now (nextStartTimeRef st) in
  let st' := step st (Decoded k (Some buffer) now) in
  (exists o,
     contexts st !! ctx = Some o /\
     contexts st' !! ctx = Some (startSource start buffer o)) /\
  nextStartTimeRef st' = start + duration buffer /\
  length (contexts st') = length (contexts st).
Proof.
  intros Hwf Hk start st'.
  assert (Hctx : (ctx < length (contexts st))%nat).
  { exact (Forall_lookup_1 _ _ _ _ (wf_decoding _ Hwf) Hk). }
  apply lookup_lt_is_Some_2 in Hctx. destruct Hctx as [o Ho].
  subst st'. simpl. unfold onmessage_resume. rewrite Hk. state_simpl.
  split; [| split; [reflexivity | apply length_alter]].
  exists o. split; [exact Ho |]. now rewrite list_lookup_alter_eq, Ho.
Qed.

(** X9: two chunks scheduled one after the other never overlap: the
    second starts no earlier than the first ends.  When the second is
    resumed before the first has finished playing it starts exactly where
    the first ends, without a gap; when it is resumed later it starts at
    the current time of the context. *)
Theorem consecutive_chunks_never_overlap
    (tr : list Event) (k1 k2 ctx1 ctx2 : nat) (b1 b2 : AudioBuffer)
    (now1 now2 : Q) :
  let st := run initial tr in
  let st1 := step st (Decoded k1 (Some b1) now1) in
  let st2 := step st1 (Decoded k2 (Some b2) now2) in
  let start1 := Qmax now1 (nextStartTimeRef st) in
  let start2 := Qmax now2 (nextStartTimeRef st1) in
  decoding st !! k1 = Some ctx1 ->
  decoding st1 !! k2 = Some ctx2 ->
  (exists o1 o2,
     contexts st !! ctx1 = Some o1 /\
     contexts st1 !! ctx1 = Some (startSource start1 b1 o1) /\
     contexts st1 !! ctx2 = Some o2 /\
     contexts st2 !! ctx2 = Some (startSource start2 b2 o2)) /\
  start1 + duration b1 <= start2 /\
  (now2 <= start1 + duration b1 -> start2 == start1 + duration b1) /\
  (start1 + duration b1 <= now2 -> start2 == now2).
Proof.
  intros st st1 st2 start1 start2 Hk1 Hk2.
  pose proof (wellFormed_reachable tr) as Hwf. fold st in Hwf.
  destruct (resume_schedules st k1 ctx1 b1 now1 Hwf Hk1)
    as ((o1 & Ho1 & Ho1') & Hclock1 & _).
  fold st1 in Ho1', Hclock1. fold start1 in Ho1', Hclock1.
  pose proof (wellFormed_step st (Decoded k1 (Some b1) now1) Hwf) as Hwf1.
  fold st1 in Hwf1.
  destruct (resume_schedules st1 k2 ctx2 b2 now2 Hwf1 Hk2)
    as ((o2 & Ho2 & Ho2') & _ & _).
  fold st2 in Ho2'. fold start2 in Ho2'.
  split; [exists o1, o2; auto |].
  subst start2. rewrite Hclock1.
  split; [apply Q.le_max_r |].
  split; intros H; [now apply Q.max_r | now apply Q.max_l].
Qed.

Lemma consecutive_chunks_never_overlap_witness :
  let st := run initial [Click; SessionMessage 0 (Some "AAAA"%string);
                         SessionMessage 0 (Some "BBBB"%string)] in
  let st1 := step st (Decoded 0 (Some {| duration := 2 |}) 1) in
  Qmax 1 (nextStartTimeRef st) + 2
    <= Qmax (3 # 2) (nextStartTimeRef st1).
Proof.
  exact (proj1 (proj2 (consecutive_chunks_never_overlap
           [Click; SessionMessage 0 (Some "AAAA"%string);
            SessionMessage 0 (Some "BBBB"%string)]
           0 0 0 0 {| duration := 2 |} {| duration := 1 # 2 |} 1 (3 # 2)
           eq_refl eq_refl))).
Defined.

Lemma resume_after_connect st k ctx buffer now :
  wellFormed st ->
  decoding st !! k = Some ctx ->
  let st' := step (connect st) (Decoded k (Some buffer) now) in
  audioContextRef st' = Some (length (contexts st)) /\
  ctx <> length (contexts st) /\
  contexts st' !! length (contexts st) = Some newContext /\
  (exists o,
     contexts st !! ctx = Some o /\
     contexts st' !! ctx = Some (startSource (Qmax now 0) buffer o)) /\
  nextStartTimeRef st' = Qmax now 0 + duration buffer.
Proof.
  intros Hwf Hk st'.
  assert (Hctx : (ctx < length (contexts st))%nat).
  { exact (Forall_lookup_1 _ _ _ _ (wf_decoding _ Hwf) Hk). }
  destruct (lookup_lt_is_Some_2 _ _ Hctx) as [o Ho].
  assert (Hst' : st' = set_nextStartTimeRef (Qmax now 0 + duration buffer)
                         (set_contexts
                            (alter (startSource (Qmax now 0) buffer) ctx
                               (contexts st ++ [newContext]))
                            (set_decoding (delete k (decoding st)) (connect st)))).
  { subst st'. cbn [step]. unfold onmessage_resume.
    change (decoding (connect st)) with (decoding st). rewrite Hk.
    reflexivity. }
  rewrite Hst'. clear Hst' st'. state_simpl.
  split; [reflexivity |]. split; [lia |]. split; [| split; [| reflexivity]].
  - rewrite list_lookup_alter_ne by lia.
    rewrite lookup_app_r by lia. now rewrite Nat.sub_diag.
  - exists o. split; [exact Ho |].
    rewrite list_lookup_alter_eq, lookup_app_l by exact Hctx.
    now rewrite Ho.
Qed.

(** X10: a chunk still being decoded when [connect] runs again is, once
    decoded, started on the output context of the earlier session, which
    it kept, and not on the new one; yet it is timed against the clock
    [connect] has just reset to 0, and it moves that clock, which the new
    session uses. *)
Theorem stale_chunk_moves_new_clock
    (tr : list Event) (k ctx : nat) (buffer : AudioBuffer) (now : Q) :
  decoding (run initial tr) !! k = Some ctx ->
  audioContextRef (step (connect (run initial tr)) (Decoded k (Some buffer) now))
    = Some (length (contexts (run initial tr))) /\
  ctx <> length (contexts (run initial tr)) /\
  contexts (step (connect (run initial tr)) (Decoded k (Some buffer) now))
    !! length (contexts (run initial tr)) = Some newContext /\
  (exists o,
     contexts (run initial tr) !! ctx = Some o /\
     contexts (step (connect (run initial tr)) (Decoded k (Some buffer) now)) !! ctx
       = Some (startSource (Qmax now 0) buffer o)) /\
  nextStartTimeRef (step (connect (run initial tr)) (Decoded k (Some buffer) now))
    = Qmax now 0 + duration buffer.
Proof.
  intros Hk.
  exact (resume_after_connect (run initial tr) k ctx buffer now
           (wellFormed_reachable tr) Hk).
Qed.

Lemma stale_chunk_moves_new_clock_witness :
  nextStartTimeRef
    (step (connect (run initial [Click; SessionMessage 0 (Some "AAAA"%string)]))
       (Decoded 0 (Some {| duration := 1 # 2 |}) 7))
  = Qmax 7 0 + (1 # 2).
Proof.
  exact (proj2 (proj2 (proj2 (proj2 (stale_chunk_moves_new_clock
           [Click; SessionMessage 0 (Some "AAAA"%string)] 0 0
           {| duration := 1 # 2 |} 7 eq_refl))))).
Defined.

End LiveView_schedule.

Section LiveView_outbound.

Import LiveView.
Local Open Scope nat_scope.

Lemma settled_thenDo r s : settled s -> settled (thenDo r s).
Proof.
  unfold settled, thenDo. intros Hs.
  destruct (resolved s) eqn:Hr; [| simpl; discriminate].
  destruct r; simpl; auto.
Qed.

Lemma settled_fulfil s : settled s -> settled (fulfil s).
Proof.
  unfold settled, fulfil. intros Hs.
  destruct (resolved s) eqn:Hr; [rewrite Hr; exact Hs |].
  intros _.
  now destruct (runReaction_fold (reactions s)
                  {| resolved := true; reactions := [];
                     realtimeInput := realtimeInput s;
                     sessionCloseCalls := sessionCloseCalls s |}) as (_ & -> & _).
Qed.

Lemma settled_step st e :
  Forall settled (sessions st) -> Forall settled (sessions (step st e)).
Proof.
  intros H.
  destruct e as [| s | s | s d | k o now | s | s | c g | c f | t]; simpl.
  - unfold onClick. destruct (isConnected st).
    + rewrite disconnect_sessions. destruct (sessionPromiseRef st); [| exact H].
      apply Forall_alter; [exact H |]. intros x _. apply settled_thenDo.
    + unfold connect. state_simpl. apply Forall_app. split; [exact H |].
      repeat constructor; unfold settled; discriminate.
  - state_simpl. apply Forall_alter; [exact H |]. intros x _. apply settled_fulfil.
  - unfold ofSession. destruct (s <? length (sessions st)); exact H.
  - unfold ofSession, onmessage.
    destruct (s <? length (sessions st)); [| exact H].
    destruct (audioContextRef st); [| exact H].
    destruct (JS.truthy d); exact H.
  - unfold onmessage_resume. destruct (decoding st !! k); [| exact H].
    destruct o; exact H.
  - unfold ofSession. destruct (s <? length (sessions st)); exact H.
  - unfold ofSession. destruct (s <? length (sessions st)); exact H.
  - unfold startAudioStream_resume.
    destruct (captures st !! c) as [cap |]; [| exact H].
    destruct (mic cap); exact H.
  - unfold onaudioprocess. destruct (captures st !! c) as [cap |]; [| exact H].
    destruct (processorConnected cap); [| exact H].
    state_simpl. apply Forall_alter; [exact H |]. intros x _. apply settled_thenDo.
  - unfold onClick_catch. destruct (isConnected st).
    + rewrite disconnect_sessions. destruct (sessionPromiseRef st); [| exact H].
      apply Forall_alter; [exact H |]. intros x _. apply settled_thenDo.
    + destruct (connect_catch_frame t st) as (-> & _). exact H.
Qed.

Lemma settled_reachable tr : Forall settled (sessions (run initial tr)).
Proof.
  assert (Hrun : forall st, Forall settled (sessions st) ->
                            Forall settled (sessions (run st tr))).
  { induction tr as [| e tr IH]; intros st Hst; simpl; [exact Hst |].
    apply IH, settled_step, Hst. }
  apply Hrun. constructor.
Qed.

Lemma outbound_thenDo_send data s :
  settled s -> outbound (thenDo (SendRealtimeInput data) s) = outbound s ++ [data].
Proof.
  unfold settled, outbound, pendingFrames, thenDo. intros Hs.
  destruct (resolved s) eqn:Hr; simpl.
  - rewrite (Hs eq_refl). simpl. now rewrite !app_nil_r.
  - rewrite framesOf_app. simpl. now rewrite app_assoc.
Qed.

Lemma outbound_thenDo_close s : outbound (thenDo CloseSession s) = outbound s.
Proof.
  unfold outbound, pendingFrames, thenDo.
  destruct (resolved s); simpl; [reflexivity |].
  rewrite framesOf_app. simpl. now rewrite app_nil_r.
Qed.

Lemma outbound_fulfil s : outbound (fulfil s) = outbound s.
Proof.
  destruct (resolved s) eqn:Hr.
  - unfold fulfil. now rewrite Hr.
  - destruct (fulfil_sends_pending s Hr) as (Hin & Hre & _).
    unfold outbound, pendingFrames. rewrite Hin, Hre. simpl.
    now rewrite app_nil_r.
Qed.

(** X11: in every reachable state and for every event, what a session was
    or will be handed by [sendRealtimeInput] (the frames sent followed by
    the frames waiting for the promise) changes only at its end, and only
    by the frame of an [onaudioprocess] of a connected capture started
    with that session: frames are never lost, repeated or reordered, also
    across the fulfilment of the promise, a [disconnect] or a close. *)
Theorem frames_reach_session_in_order
    (tr : list Event) (e : Event) (s : nat) (sess : Session) :
  let st := run initial tr in
  sessions st !! s = Some sess ->
  exists sess',
    sessions (step st e) !! s = Some sess' /\
    outbound sess' = outbound sess ++ captured st s e.
Proof.
  intros st Hs.
  pose proof (Forall_lookup_1 _ _ _ _ (settled_reachable tr) Hs) as Hset.
  fold st in Hset.
  assert (Hsame : exists sess', sessions st !! s = Some sess' /\
                                outbound sess' = outbound sess ++ []).
  { exists sess. split; [exact Hs | now rewrite app_nil_r]. }
  assert (Halter : forall f p,
             (forall x, outbound (f x) = outbound x) ->
             exists sess', alter f p (sessions st) !! s = Some sess' /\
                           outbound sess' = outbound sess ++ []).
  { intros f p Hf. destruct (decide (p = s)) as [-> | Hne].
    - exists (f sess). rewrite list_lookup_alter_eq, Hs. split; [reflexivity |].
      now rewrite Hf, app_nil_r.
    - exists sess. rewrite list_lookup_alter_ne by exact Hne.
      split; [exact Hs | now rewrite app_nil_r]. }
  destruct e as [| p | p | p d | k o now | p | p | c g | c f | t]; simpl.
  - unfold onClick. destruct (isConnected st).
    + rewrite disconnect_sessions. destruct (sessionPromiseRef st) as [p |].
      * apply Halter, outbound_thenDo_close.
      * exact Hsame.
    + unfold connect. state_simpl. exists sess.
      rewrite lookup_app_l by (eapply lookup_lt_Some, Hs).
      split; [exact Hs | now rewrite app_nil_r].
  - state_simpl. apply Halter, outbound_fulfil.
  - unfold ofSession. destruct (p <? length (sessions st)); exact Hsame.
  - unfold ofSession, onmessage.
    destruct (p <? length (sessions st)); [| exact Hsame].
    destruct (audioContextRef st); [| exact Hsame].
    destruct (JS.truthy d); exact Hsame.
  - unfold onmessage_resume. destruct (decoding st !! k); [| exact Hsame].
    destruct o; exact Hsame.
  - unfold ofSession. destruct (p <? length (sessions st)); exact Hsame.
  - unfold ofSession. destruct (p <? length (sessions st)); exact Hsame.
  - unfold startAudioStream_resume.
    destruct (captures st !! c) as [cap |]; [| exact Hsame].
    destruct (mic cap); exact Hsame.
  - unfold onaudioprocess. destruct (captures st !! c) as [cap |]; [| exact Hsame].
    destruct (processorConnected cap); [| exact Hsame].
    state_simpl. simpl.
    destruct (Nat.eqb_spec (feeds cap) s) as [-> | Hne].
    + exists (thenDo (SendRealtimeInput (PCM16.float32ToPCM16 f)) sess).
      rewrite list_lookup_alter_eq, Hs. split; [reflexivity |].
      now apply outbound_thenDo_send.
    + exists sess. rewrite list_lookup_alter_ne by exact Hne.
      split; [exact Hs | now rewrite app_nil_r].
  - unfold onClick_catch. destruct (isConnected st).
    + rewrite disconnect_sessions. destruct (sessionPromiseRef st) as [p |].
      * apply Halter, outbound_thenDo_close.
      * exact Hsame.
    + destruct (connect_catch_frame t st) as (-> & _). exact Hsame.
Qed.

Lemma frames_reach_session_in_order_witness :
  exists sess',
    sessions (step (run initial openedPending) (AudioProcess 0 [1%Q])) !! 0
      = Some sess' /\
    outbound sess' = outbound newSession ++ [[32767%Z]].
Proof.
  exact (frames_reach_session_in_order openedPending (AudioProcess 0 [1%Q])
           0 newSession eq_refl).
Defined.

End LiveView_outbound.

(** ** The chat view *)

(** Unfolds the field updates of the chat view and reduces the projections
    they meet. *)
Ltac chat_simpl :=
  cbv beta delta
    [ChatView.setInput ChatView.setMessages ChatView.setIsLoading
     ChatView.setMode ChatView.set_inflight ChatView.set_calls
     ChatView.startCall];
  cbn [ChatView.input ChatView.messages ChatView.isLoading ChatView.mode
       ChatView.inflight ChatView.calls].

Section Chat_view.

Import ChatView.
Local Open Scope string_scope.

Lemma trimEnd_empty_iff s : JS.trimEnd s = EmptyString <-> allWhite s = true.
Proof.
  induction s as [| c rest IH]; simpl; [tauto |].
  destruct (JS.trimEnd rest) as [| d kept] eqn:Hr.
  - destruct (JS.isWhiteSpace c); simpl.
    + split; intros _; [now apply IH | reflexivity].
    + split; discriminate.
  - split; [discriminate |]. intros H. apply andb_true_iff in H as [_ H].
    apply IH in H. discriminate.
Qed.

Lemma trimStart_shape s :
  (JS.trimStart s = EmptyString /\ allWhite s = true) \/
  (exists c rest, JS.trimStart s = String c rest /\ JS.isWhiteSpace c = false /\
                  allWhite s = false).
Proof.
  induction s as [| c rest IH]; simpl; [left; tauto |].
  destruct (JS.isWhiteSpace c) eqn:Hc; simpl.
  - exact IH.
  - right. exists c, rest. auto.
Qed.

Lemma trim_empty_iff s : JS.trim s = EmptyString <-> allWhite s = true.
Proof.
  unfold JS.trim.
  destruct (trimStart_shape s) as [[-> Hw] | (c & rest & -> & Hc & Hw)].
  - simpl. tauto.
  - rewrite Hw. split; [| discriminate].
    rewrite trimEnd_empty_iff. simpl. rewrite Hc. discriminate.
Qed.

Lemma blank_guard s :
  negb (JS.truthy (Some (JS.trim s))) = allWhite s.
Proof.
  destruct (allWhite s) eqn:Hw.
  - apply trim_empty_iff in Hw. now rewrite Hw.
  - destruct (JS.trim s) eqn:Ht; [| reflexivity].
    apply trim_empty_iff in Ht. congruence.
Qed.

(** X12: an input made of white space only (or empty) is ignored by the
    Enter key and by the send button: nothing is appended, nothing is
    requested, no cell changes.  Any other input is sent as typed, white
    space around it included: the user message and the prompt of the
    request carry the untrimmed text, and the input cell is cleared.
    Outside maps mode the request is made at once; in maps mode none is
    made before the geolocation request has settled, and the one made
    then, with or without a position, carries the same untrimmed text. *)
Theorem handleSend_ignores_blank_input (st : State) (idNow stampNow : Z) :
  (allWhite (input st) = true ->
     step st (KeyEnter idNow stampNow) = st /\
     step st (ClickSend idNow stampNow) = st) /\
  (allWhite (input st) = false ->
     let st' := step st (KeyEnter idNow stampNow) in
     messages st'
       = (messages st ++
            [ {| id := JS.toString idNow; role := user; text := Some (input st);
                 groundingUrls := None; timestamp := stampNow |} ])%list /\
     input st' = EmptyString /\
     isLoading st' = true /\
     (mode st <> Maps ->
        exists call,
          calls st' = (calls st ++ [call])%list /\
          GeminiService.chatMessage call = input st) /\
     (mode st = Maps ->
        calls st' = calls st /\
        forall position,
          exists call,
            calls (step st' (Located (length (inflight st)) position))
              = (calls st ++ [call])%list /\
            GeminiService.chatMessage call = input st)).
Proof.
  split.
  - intros Hw. simpl. unfold sendDisabled, handleSend.
    rewrite blank_guard, Hw. rewrite orb_true_r. split; reflexivity.
  - intros Hw st'. subst st'. simpl. unfold handleSend.
    rewrite blank_guard, Hw.
    assert (Hprompt : forall m position,
              GeminiService.chatMessage
                (callFor m
                   {| id := JS.toString idNow; role := user;
                      text := Some (input st); groundingUrls := None;
                      timestamp := stampNow |} position) = input st).
    { intros m position. unfold callFor. cbn [text]. unfold JS.orElse.
      destruct (input st) as [| c rest]; [discriminate Hw |].
      destruct m, position; reflexivity. }
    destruct (mode st) eqn:Hm; cbn [modeEqb negb];
      (split; [reflexivity | split; [reflexivity | split; [reflexivity | split]]]);
      intros Hmode; try discriminate Hmode; try congruence;
      try (eexists; split; [reflexivity | apply Hprompt]).
    split; [reflexivity |].
    intros position. cbn [step]. unfold handleSend_located. chat_simpl.
    rewrite lookup_app_r by reflexivity. rewrite Nat.sub_diag.
    cbn [lookup list_lookup]. chat_simpl.
    eexists. split; [reflexivity | apply Hprompt].
Qed.

Lemma handleSend_ignores_blank_input_witness :
  step (setInput "   " (initial 0)) (KeyEnter 5 6) = setInput "   " (initial 0) /\
  (forall position,
     exists call,
       calls (step (step (setMode Maps (setInput " a " (initial 0)))
                         (KeyEnter 5 6))
                   (Located 0 position)) = [call] /\
       GeminiService.chatMessage call = " a ").
Proof.
  split.
  - exact (proj1 (proj1 (handleSend_ignores_blank_input
                           (setInput "   " (initial 0)) 5 6) eq_refl)).
  - exact (proj2 (proj2 (proj2 (proj2 (proj2
             (proj2 (handleSend_ignores_blank_input
                       (setMode Maps (setInput " a " (initial 0))) 5 6)
                    eq_refl)))) eq_refl)).
Defined.

End Chat_view.

Section Chat_view_runs.

Import ChatView.
Local Open Scope string_scope.

(** X13: the send button does nothing while a request is loading, but the
    Enter key is not guarded by [isLoading]: with an input that is not
    blank it starts another request while the earlier one is still in
    flight. *)
Theorem enter_key_sends_while_loading (st : State) (idNow stampNow : Z) :
  isLoading st = true ->
  allWhite (input st) = false ->
  step st (ClickSend idNow stampNow) = st /\
  length (inflight (step st (KeyEnter idNow stampNow))) = S (length (inflight st)) /\
  length (messages (step st (KeyEnter idNow stampNow))) = S (length (messages st)).
Proof.
  intros Hl Hw. simpl. unfold sendDisabled, handleSend.
  rewrite Hl, blank_guard, Hw. cbn [orb].
  split; [reflexivity |].
  destruct (modeEqb (mode st) Maps); cbn; rewrite !length_app; simpl; lia.
Qed.

Lemma enter_key_sends_while_loading_witness :
  let st := step (run (initial 0) [Change "first"; KeyEnter 1 1]) (Change "second") in
  step st (ClickSend 2 2) = st /\
  length (inflight (step st (KeyEnter 2 2))) = 2%nat /\
  length (messages (step st (KeyEnter 2 2))) = 3%nat.
Proof.
  exact (enter_key_sends_while_loading
           (step (run (initial 0) [Change "first"; KeyEnter 1 1]) (Change "second"))
           2 2 eq_refl eq_refl).
Defined.

Lemma count_snoc f l m :
  count f (l ++ [m]) = (count f l + if f m then 1 else 0)%nat.
Proof.
  unfold count. rewrite List.filter_app, length_app. simpl.
  destruct (f m); reflexivity.
Qed.

Lemma balanced_handleSend a b st : balanced st -> balanced (handleSend a b st).
Proof.
  unfold balanced, handleSend. intros H.
  destruct (negb (JS.truthy (Some (JS.trim (input st))))); [exact H |].
  destruct (modeEqb (mode st) Maps); chat_simpl;
    rewrite !count_snoc, length_app; simpl; lia.
Qed.

Lemma balanced_step st e : balanced st -> balanced (step st e).
Proof.
  intros H. destruct e as [v | m | a b | a b | k pos | k outcome a b]; simpl.
  - exact H.
  - exact H.
  - now apply balanced_handleSend.
  - destruct (sendDisabled st); [exact H | now apply balanced_handleSend].
  - unfold handleSend_located.
    destruct (inflight st !! k) as [[msg | call] |]; try exact H.
    unfold balanced in *. chat_simpl. now rewrite length_insert.
  - unfold handleSend_settled.
    destruct (inflight st !! k) as [[msg | call] |] eqn:Hk; try exact H.
    unfold balanced in *. chat_simpl.
    pose proof (lookup_lt_Some _ _ _ Hk) as Hlt.
    rewrite !count_snoc, length_delete by eauto.
    destruct outcome; simpl; lia.
Qed.

(** X14: in every state the chat view can reach, each message of the user
    is matched by exactly one request in flight or by exactly one reply of
    the model: the number of model messages (the greeting among them) plus
    the number of suspended calls is the number of user messages plus
    one.  A request that settles, whether it succeeded or failed, adds
    exactly one model message. *)
Theorem replies_match_user_messages (mounted : Z) (tr : list Event) :
  let st := run (initial mounted) tr in
  (count isModel (messages st) + length (inflight st)
   = count isUser (messages st) + 1)%nat.
Proof.
  simpl.
  assert (Hrun : forall st, balanced st -> balanced (run st tr)).
  { induction tr as [| e tr IH]; intros st Hst; simpl; [exact Hst |].
    apply IH, balanced_step, Hst. }
  apply (Hrun (initial mounted)). reflexivity.
Qed.

Lemma messages_step_prefix st e : messages st `prefix_of` messages (step st e).
Proof.
  destruct e as [v | m | a b | a b | k pos | k outcome a b]; simpl;
    try (exists []; now rewrite app_nil_r).
  - unfold handleSend.
    destruct (negb (JS.truthy (Some (JS.trim (input st)))));
      [exists []; now rewrite app_nil_r |].
    destruct (modeEqb (mode st) Maps); cbn; eexists; reflexivity.
  - destruct (sendDisabled st); [exists []; now rewrite app_nil_r |].
    unfold handleSend.
    destruct (negb (JS.truthy (Some (JS.trim (input st)))));
      [exists []; now rewrite app_nil_r |].
    destruct (modeEqb (mode st) Maps); cbn; eexists; reflexivity.
  - unfold handleSend_located.
    destruct (inflight st !! k) as [[msg | call] |];
      exists []; now rewrite app_nil_r.
  - unfold handleSend_settled.
    destruct (inflight st !! k) as [[msg | call] |];
      try (exists []; now rewrite app_nil_r).
    cbn. eexists; reflexivity.
Qed.

(** X15: the conversation is append-only: whatever happens, the messages
    shown before are still there, in the same places, and the greeting
    stays first. *)
Theorem conversation_is_append_only (st : State) (tr : list Event) :
  messages st `prefix_of` messages (run st tr) /\
  (forall mounted,
     messages (run (initial mounted) tr) !! 0%nat
     = Some {| id := "init"; role := model; text := Some greeting;
               groundingUrls := None; timestamp := mounted |}).
Proof.
  assert (Hrun : forall st, messages st `prefix_of` messages (run st tr)).
  { induction tr as [| e tr IH]; intros st0; simpl; [reflexivity |].
    etransitivity; [apply messages_step_prefix | apply IH]. }
  split; [apply Hrun |].
  intros mounted. destruct (Hrun (initial mounted)) as [k ->]. reflexivity.
Qed.

End Chat_view_runs.

Section Chat_view_requests.

Import ChatView.
Local Open Scope string_scope.

Lemma viewCall_callFor m userMsg location : viewCall (callFor m userMsg location).
Proof.
  unfold viewCall, callFor, GeminiService.sendChatMessage.
  destruct m, location; cbn;
    repeat split; intros; try discriminate; try congruence; try reflexivity;
    match goal with
    | H : Some _ = Some _ |- _ => injection H as <-; reflexivity
    end.
Qed.

Lemma viewCall_step st e :
  Forall viewCall (calls st) -> Forall viewCall (calls (step st e)).
Proof.
  intros H.
  assert (Hsend : forall a b, Forall viewCall (calls (handleSend a b st))).
  { intros a b. unfold handleSend.
    destruct (negb (JS.truthy (Some (JS.trim (input st))))); [exact H |].
    destruct (modeEqb (mode st) Maps); chat_simpl; [exact H |].
    apply Forall_app. split; [exact H |].
    constructor; [apply viewCall_callFor | constructor]. }
  destruct e as [v | m | a b | a b | k pos | k outcome a b]; simpl;
    try exact H; try apply Hsend.
  - destruct (sendDisabled st); [exact H | apply Hsend].
  - unfold handleSend_located.
    destruct (inflight st !! k) as [[msg | call] |]; try exact H.
    chat_simpl. apply Forall_app. split; [exact H |].
    constructor; [apply viewCall_callFor | constructor].
  - unfold handleSend_settled.
    destruct (inflight st !! k) as [[msg | call] |]; exact H.
Qed.

(** X16: every request the chat view ever makes is sent with an empty
    history; it carries the thinking budget exactly when it asks for the
    pro model; when it carries tools the model is [gemini-2.5-flash] and
    there is exactly one tool; and a tool configuration (the location)
    comes only with the maps tool. *)
Theorem chat_view_requests (mounted : Z) (tr : list Event)
    (call : GeminiService.ChatCall) :
  In call (calls (run (initial mounted) tr)) ->
  GeminiService.chatHistory call = [] /\
  (GeminiService.thinkingConfig (GeminiService.chatConfig call) = Some 32768%Z
     <-> GeminiService.chatModel call = "gemini-3-pro-preview") /\
  (GeminiService.tools (GeminiService.chatConfig call) <> None
     -> GeminiService.chatModel call = "gemini-2.5-flash") /\
  (forall ts, GeminiService.tools (GeminiService.chatConfig call) = Some ts ->
              length ts = 1%nat) /\
  (GeminiService.toolConfig (GeminiService.chatConfig call) <> None
     -> GeminiService.tools (GeminiService.chatConfig call)
        = Some [GeminiService.googleMaps]).
Proof.
  assert (Hrun : forall st, Forall viewCall (calls st) ->
                            Forall viewCall (calls (run st tr))).
  { induction tr as [| e tr IH]; intros st Hst; simpl; [exact Hst |].
    apply IH, viewCall_step, Hst. }
  intros Hin.
  pose proof (Hrun (initial mounted) (Forall_nil_2 _)) as Hall.
  rewrite Forall_forall in Hall. apply list_elem_of_In in Hin.
  exact (Hall call Hin).
Qed.

Lemma chat_view_requests_witness :
  let call := callFor Maps
                {| id := "1"; role := user; text := Some "cafes nearby";
                   groundingUrls := None; timestamp := 1 |}
                (Some {| GeminiService.lat := 48 # 1; GeminiService.lng := 2 # 1 |}) in
  GeminiService.chatHistory call = [] /\
  GeminiService.chatModel call = "gemini-2.5-flash".
Proof.
  pose proof (chat_view_requests 0
                [SelectMode Maps; Change "cafes nearby"; KeyEnter 1 1;
                 Located 0 (Some {| GeminiService.lat := 48 # 1;
                                    GeminiService.lng := 2 # 1 |})]
                (callFor Maps
                   {| id := "1"; role := user; text := Some "cafes nearby";
                      groundingUrls := None; timestamp := 1 |}
                   (Some {| GeminiService.lat := 48 # 1; GeminiService.lng := 2 # 1 |}))
                ltac:(simpl; left; reflexivity)) as (Hh & _ & Hm & _).
  split; [exact Hh | apply Hm; discriminate].
Defined.

Lemma links_of_chunks (chunks : list GroundingChunk) :
  let urls := flat_map linksOf chunks in
  map linkTarget (List.filter isSearchLink urls)
    = map sourceTarget (omap web chunks) /\
  map linkTarget (List.filter isMapLink urls)
    = map sourceTarget (omap maps chunks) /\
  length urls = (length (omap web chunks) + length (omap maps chunks))%nat.
Proof.
  induction chunks as [| c cs (IHs & IHm & IHl)]; [repeat split |].
  cbn [flat_map omap list_omap]. rewrite !List.filter_app, !map_app, length_app.
  rewrite IHs, IHm, IHl. unfold linksOf.
  destruct (web c), (maps c); cbn; repeat split; lia.
Qed.

(** X17: the links shown under an answer are the [web] and [maps] entries
    of the grounding chunks of its first candidate, in the order of the
    chunks, a chunk with both entries giving the search link first: the
    search links are exactly the [web] entries, the map links exactly the
    [maps] entries, and there is no other link.  A successful answer
    without grounding carries an empty list of links; the message of a
    failed request carries none. *)
Theorem grounding_links_keep_sources
    (st : State) (k : nat) (call : GeminiService.ChatCall)
    (result : ChatResult) (idNow stampNow : Z) :
  inflight st !! k = Some (Awaiting call) ->
  let urls := urlsOf result in
  let chunks := match groundingChunksOf result with
                | Some cs => cs
                | None => []
                end in
  messages (step st (Settled k (Some result) idNow stampNow))
    = (messages st ++
         [ {| id := JS.toString (idNow + 1); role := model;
              text := resultText result; groundingUrls := Some urls;
              timestamp := stampNow |} ])%list /\
  map linkTarget (List.filter isSearchLink urls)
    = map sourceTarget (omap web chunks) /\
  map linkTarget (List.filter isMapLink urls)
    = map sourceTarget (omap maps chunks) /\
  length urls = (length (omap web chunks) + length (omap maps chunks))%nat /\
  messages (step st (Settled k None idNow stampNow))
    = (messages st ++
         [ {| id := JS.toString idNow; role := model;
              text := Some failureText; groundingUrls := None;
              timestamp := stampNow |} ])%list.
Proof.
  intros Hk urls chunks.
  split; [simpl; unfold handleSend_settled; rewrite Hk; reflexivity |].
  assert (Hurls : urls = flat_map linksOf chunks).
  { subst urls chunks. unfold urlsOf.
    destruct (groundingChunksOf result); reflexivity. }
  rewrite Hurls.
  destruct (links_of_chunks chunks) as (Hs & Hm & Hl).
  repeat split; try assumption.
  simpl. unfold handleSend_settled. rewrite Hk. reflexivity.
Qed.

Lemma grounding_links_keep_sources_witness :
  let result :=
    {| resultCandidates :=
         Some [ {| groundingMetadata :=
                     Some {| groundingChunks :=
                               Some [ {| web := Some {| sourceTitle := Some "Docs";
                                                        sourceUri := Some "https://a" |};
                                         maps := Some {| sourceTitle := Some "Cafe";
                                                         sourceUri := Some "https://m" |} |} ] |} |} ];
       resultText := Some "here" |} in
  length (urlsOf result) = 2%nat.
Proof.
  pose proof (grounding_links_keep_sources
                (run (initial 0) [Change "hi"; KeyEnter 1 1]) 0
                (callFor Smart {| id := "1"; role := user; text := Some "hi";
                                  groundingUrls := None; timestamp := 1 |} None)
                {| resultCandidates :=
                     Some [ {| groundingMetadata :=
                                 Some {| groundingChunks :=
                                           Some [ {| web := Some {| sourceTitle := Some "Docs";
                                                                    sourceUri := Some "https://a" |};
                                                     maps := Some {| sourceTitle := Some "Cafe";
                                                                     sourceUri := Some "https://m" |} |} ] |} |} ];
                   resultText := Some "here" |}
                5 6 eq_refl) as (_ & _ & _ & Hl & _).
  exact Hl.
Defined.

End Chat_view_requests.

(** ** The vision view *)

Section Vision_view.

Import VisionView.
Local Open Scope string_scope.

(** Unfolds the field updates of the vision view. *)
Ltac vision_simpl :=
  cbv beta delta
    [setActiveTab setFile setPreview setPrompt setOutput setLoading
     set_pending set_requests call];
  cbn [activeTab file preview prompt output loading pending requests].

Lemma tracked_handleAction st :
  loading st = false -> pending st = [] -> tracked (handleAction st).
Proof.
  intros Hl Hp. unfold handleAction.
  destruct (file st) as [f |]; [| right; auto].
  destruct (preview st) as [base64 |]; [| right; auto].
  destruct (negb (JS.truthy (Some base64))); [right; auto |].
  vision_simpl.
  destruct (activeTab st).
  - destruct (startsWith "image" f); vision_simpl.
    + left. rewrite Hp. auto.
    + destruct (startsWith "video" f); vision_simpl.
      * left. rewrite Hp. auto.
      * right. auto.
  - left. rewrite Hp. auto.
  - left. rewrite Hp. auto.
Qed.

Lemma tracked_step st e : tracked st -> tracked (step st e).
Proof.
  intros H. destruct e as [t | chosen | result | | value | | k outcome]; simpl.
  - exact H.
  - unfold handleFile. destruct chosen as [f |]; [| exact H].
    destruct (startsWith "image" f); [exact H |].
    destruct (startsWith "video" f); exact H.
  - exact H.
  - exact H.
  - exact H.
  - unfold actionDisabled. destruct (file st) as [f |] eqn:Hf; [| exact H].
    destruct (loading st) eqn:Hl; [exact H |].
    destruct H as [[Ht _] | [_ Hp]]; [congruence |].
    now apply tracked_handleAction.
  - unfold handleAction_settled.
    destruct (pending st !! k) as [p |] eqn:Hk; [| exact H].
    destruct H as [[_ Hlen] | [_ Hp]].
    + right. split.
      * destruct outcome as [response | e]; [destruct (resultOf p response) |];
          reflexivity.
      * assert (Hd : length (delete k (pending st)) = 0%nat).
        { rewrite length_delete by eauto. lia. }
        destruct outcome as [response | e]; [destruct (resultOf p response) |];
          vision_simpl; now apply length_zero_iff_nil.
    + rewrite Hp in Hk. discriminate.
Qed.

(** X18: in every state the vision view can reach, at most one request is
    in flight, and [loading] is true exactly while one is: the button
    cannot start a second request before the first has settled, and a
    request that settles, well or badly, always ends the loading state. *)
Theorem one_action_in_flight (tr : list Event) :
  let st := run initial tr in
  (length (pending st) <= 1)%nat /\
  (loading st = true <-> pending st <> []).
Proof.
  simpl.
  assert (Hrun : forall st, tracked st -> tracked (run st tr)).
  { induction tr as [| e tr IH]; intros st Hst; simpl; [exact Hst |].
    apply IH, tracked_step, Hst. }
  destruct (Hrun initial) as [[Hl Hlen] | [Hl Hp]]; [right; auto | |].
  - rewrite Hl, Hlen. split; [lia |]. split; [| reflexivity].
    intros _ Hnil. rewrite Hnil in Hlen. discriminate.
  - rewrite Hl, Hp. split; [simpl; lia |]. split; [discriminate | congruence].
Qed.

(** X19: on the analyze tab, with a file whose type starts neither with
    [image] nor with [video] (an audio file kept from the audio tab, say),
    the action button does nothing at all: no request is made, the output
    keeps its value and no error is shown. *)
Theorem analyze_ignores_other_files (st : State) (f : File) (base64 : string) :
  activeTab st = analyze ->
  file st = Some f ->
  preview st = Some base64 ->
  loading st = false ->
  startsWith "image" f = false ->
  startsWith "video" f = false ->
  step st ClickAction = st.
Proof.
  intros Ht Hf Hp Hl Hi Hv. simpl. unfold actionDisabled, handleAction.
  rewrite Hf, Hp, Hl.
  destruct (negb (JS.truthy (Some base64))); [reflexivity |].
  vision_simpl. rewrite Ht, Hi, Hv. vision_simpl.
  destruct st; simpl in *; subst; reflexivity.
Qed.

Lemma analyze_ignores_other_files_witness :
  let st := run initial
              [SelectTab audio;
               ChooseFile (Some {| name := "a.mp3"; type := "audio/mpeg" |});
               ReaderLoaded (Some "data:audio/mpeg;base64,SUQz");
               SelectTab analyze] in
  step st ClickAction = st.
Proof.
  exact (analyze_ignores_other_files
           (run initial
              [SelectTab audio;
               ChooseFile (Some {| name := "a.mp3"; type := "audio/mpeg" |});
               ReaderLoaded (Some "data:audio/mpeg;base64,SUQz");
               SelectTab analyze])
           {| name := "a.mp3"; type := "audio/mpeg" |}
           "data:audio/mpeg;base64,SUQz"
           eq_refl eq_refl eq_refl eq_refl eq_refl eq_refl).
Defined.

(** X20: when an edit request is answered without any inline image, the
    error thrown by [editImage] ends up as the output, as the text
    [Error processing request. Error: No image returned]; a rejected
    request of any kind leaves [Error processing request.] followed by the
    text of its error.  In both cases loading ends. *)
Theorem action_failure_becomes_output
    (st : State) (k : nat) (base64 prompt : string)
    (response : GeminiService.ContentResponse) :
  pending st !! k = Some (EditImage base64 prompt) ->
  Forall GeminiService.noInline (GeminiService.firstParts response) ->
  output (step st (Settled k (inl response)))
    = Some "Error processing request. Error: No image returned" /\
  loading (step st (Settled k (inl response))) = false /\
  (forall k' p e,
     pending st !! k' = Some p ->
     output (step st (Settled k' (inr e)))
       = Some ("Error processing request. " ++ e) /\
     loading (step st (Settled k' (inr e))) = false).
Proof.
  intros Hk Hall.
  assert (Hthrow : GeminiService.editImage (fun _ => response) base64 prompt
                   = GeminiService.Threw "No image returned").
  { unfold GeminiService.editImage.
    now rewrite (proj2 (editImage_loop_none _) Hall). }
  split; [| split].
  - simpl. unfold handleAction_settled. rewrite Hk.
    unfold resultOf. rewrite Hthrow. reflexivity.
  - simpl. unfold handleAction_settled. rewrite Hk.
    unfold resultOf. rewrite Hthrow. reflexivity.
  - intros k' p e Hk'. simpl. unfold handleAction_settled. rewrite Hk'.
    split; reflexivity.
Qed.

Lemma action_failure_becomes_output_witness :
  let st := run initial
              [SelectTab edit;
               ChooseFile (Some {| name := "a.png"; type := "image/png" |});
               ReaderLoaded (Some "data:image/png;base64,QUJD");
               ClickAction] in
  output (step st (Settled 0 (inl {| GeminiService.candidates := None;
                                     GeminiService.responseText := Some "no" |})))
  = Some "Error processing request. Error: No image returned".
Proof.
  exact (proj1 (action_failure_becomes_output
           (run initial
              [SelectTab edit;
               ChooseFile (Some {| name := "a.png"; type := "image/png" |});
               ReaderLoaded (Some "data:image/png;base64,QUJD");
               ClickAction])
           0 "data:image/png;base64,QUJD" "Enhance this image"
           {| GeminiService.candidates := None;
              GeminiService.responseText := Some "no" |}
           eq_refl ltac:(constructor))).
Defined.

End Vision_view.

(** ** The studio view *)

(** Unfolds the field updates of the studio view. *)
Ltac studio_simpl :=
  cbv beta delta
    [StudioView.setMode StudioView.setPrompt StudioView.setLoading
     StudioView.setResult StudioView.setAspectRatio StudioView.setStartImage
     StudioView.set_pending StudioView.alert];
  cbn [StudioView.mode StudioView.prompt StudioView.loading StudioView.result
       StudioView.aspectRatio StudioView.startImage StudioView.pending
       StudioView.alerts].

Section Studio_view.

Import StudioView.
Local Open Scope string_scope.




(** X22: switching to video mode clears the prompt but keeps the aspect
    ratio, and in video mode an empty prompt does not disable the button:
    with nothing loading, selecting video and clicking generate calls
    [generateVideo] with an empty prompt, with the ratio selected before
    (the initial [1:1] or any ratio of image mode, which video mode does
    not offer), and with the start image, if there is one. *)
Theorem video_generation_keeps_ratio (st : State) :
  loading st = false ->
  let st' := run st [SelectMode video; ClickGenerate] in
  pending st'
    = (pending st ++
         [GenerateVideo EmptyString (aspectRatio st)
            (JS.orElse (startImage st) None)])%list /\
  loading st' = true /\
  (forall r, offered video r = true -> offered image r = true) /\
  offered video (aspectRatio initial) = false.
Proof.
  intros Hl st'. subst st'. cbn [run fold_left step].
  studio_simpl. unfold generateDisabled. studio_simpl. rewrite Hl. cbn [orb modeEqb negb andb].
  unfold handleGenerate. studio_simpl. cbn [modeEqb negb andb].
  repeat split.
  intros r. unfold offered. intros H.
  apply orb_true_iff in H as [-> | ->]; [| rewrite !orb_true_r]; reflexivity || now rewrite orb_true_r.
Qed.

Lemma video_generation_keeps_ratio_witness :
  pending (run initial [SelectMode video; ClickGenerate])
  = [GenerateVideo EmptyString "1:1" None].
Proof.
  exact (proj1 (video_generation_keeps_ratio initial eq_refl)).
Defined.

End Studio_view.
